(** * USBTransport: framing and session protocol of the lua-tessel USB transport

    A shallow embedding of [src/comms/transport/USBTransport.js]: device
    discovery, the MessagesIn reassembly handler, the Log stream handler,
    the post-message encoder and the promise-based [init]/[close] lifecycle.

    Conventions.
    - A Node [Buffer] is a [list byte]; a byte read out of it is a [Z] in
      [0, 256).  JavaScript numbers that matter here are integers and are [Z];
      positions inside a buffer are [nat].
    - A JavaScript exception is a [JsError]; code that may throw returns a
      [completion].
    - The Node runtime ([Buffer.readUInt32LE], [Buffer.concat], ...) and the
      [usb] binding are not part of the repository; they are modelled from
      their documented behaviour, next to the place they are used. *)

From Stdlib.Strings Require Import String Ascii Byte.
From Stdlib Require Import DecimalString.
From Stdlib Require Import ZArith List Bool Lia.
Import ListNotations.

Local Open Scope string_scope.
Local Open Scope list_scope.
Local Open Scope Z_scope.

(** ** JavaScript errors and completions *)

Inductive ErrorName : Type := Error_ | TypeError | RangeError.

Record JsError : Type := mkError { name : ErrorName; message : string }.

(** [new Error(msg)] *)
Definition new_Error (msg : string) : JsError := mkError Error_ msg.

Inductive completion (A : Type) : Type :=
| Normal (a : A)
| Throw (e : JsError).
Arguments Normal {A} a.
Arguments Throw {A} e.

Definition bind {A B : Type} (c : completion A) (k : A -> completion B)
  : completion B :=
  match c with
  | Normal a => k a
  | Throw e => Throw e
  end.

Notation "x <- c ;; k" := (bind c (fun x => k))
  (at level 61, c at next level, right associativity).

(** ** Bytes and buffers *)

Definition byte_to_Z (b : byte) : Z := Z.of_N (Byte.to_N b).

(** A store into a byte array keeps the value modulo 256. *)
Definition byte_of_Z (z : Z) : byte :=
  match Byte.of_N (Z.to_N (z mod 256)) with
  | Some b => b
  | None => x00
  end.

Definition Buffer : Type := list byte.

Definition Buffer_length (b : Buffer) : Z := Z.of_nat (length b).

(** [new Buffer(n)]: [n] bytes of whatever the allocator hands out ([mem]);
    old Node versions do not clear them. *)
Definition new_Buffer (n : nat) (mem : Buffer) : Buffer :=
  firstn n (mem ++ repeat x00 n).

(** [buf[i]] for a position inside the buffer. *)
Definition byte_at (b : Buffer) (i : nat) : Z := byte_to_Z (nth i b x00).

(** [buf[i]] in general: [undefined] past the end. *)
Definition Buffer_get (b : Buffer) (i : nat) : option Z :=
  option_map byte_to_Z (nth_error b i).

(** [buf[i] = v] for a position inside the buffer (a store past the end of a
    buffer is ignored). *)
Fixpoint Buffer_set (b : Buffer) (i : nat) (v : Z) : Buffer :=
  match b, i with
  | [], _ => []
  | _ :: t, O => byte_of_Z v :: t
  | h :: t, S i' => h :: Buffer_set t i' v
  end.

(** [Buffer.concat(list)] *)
Definition Buffer_concat (l : list Buffer) : Buffer := concat l.

(** [buf.slice(start, end)], both already clamped by the caller to
    non-negative numbers; a range that runs past the end is cut there. *)
Definition Buffer_slice (b : Buffer) (start end_ : nat) : Buffer :=
  firstn (end_ - start) (skipn start b).

(** [buf.slice(start)] *)
Definition Buffer_slice_from (b : Buffer) (start : nat) : Buffer :=
  skipn start b.

Definition out_of_range : JsError :=
  mkError RangeError "Trying to access beyond buffer length".

Definition out_of_bounds : JsError :=
  mkError TypeError "value is out of bounds".

(** [buf.readUInt32LE(offset)]: throws unless the four bytes lie inside the
    buffer. *)
Definition readUInt32LE (b : Buffer) (offset : nat) : completion Z :=
  if Z.of_nat offset + 4 >? Buffer_length b then Throw out_of_range
  else Normal (byte_at b offset
               + byte_at b (offset + 1) * 2 ^ 8
               + byte_at b (offset + 2) * 2 ^ 16
               + byte_at b (offset + 3) * 2 ^ 24).

(** [buf.writeUInt32LE(value, offset)]: throws when [value] is not an
    unsigned 32-bit integer or the four bytes do not lie inside the buffer. *)
Definition writeUInt32LE (b : Buffer) (value : Z) (offset : nat)
  : completion Buffer :=
  if (value <? 0) || (value >? 4294967295) then Throw out_of_bounds
  else if Z.of_nat offset + 4 >? Buffer_length b then Throw out_of_range
  else
    let b := Buffer_set b offset (Z.land value 255) in
    let b := Buffer_set b (offset + 1) (Z.land (Z.shiftr value 8) 255) in
    let b := Buffer_set b (offset + 2) (Z.land (Z.shiftr value 16) 255) in
    let b := Buffer_set b (offset + 3) (Z.land (Z.shiftr value 24) 255) in
    Normal b.

(** Lower-case hexadecimal, two digits per byte: [buf.toString('hex', ...)]. *)
Definition hex_digit (n : Z) : ascii :=
  nth (Z.to_nat n)
      ["0"; "1"; "2"; "3"; "4"; "5"; "6"; "7";
       "8"; "9"; "a"; "b"; "c"; "d"; "e"; "f"]%char "0"%char.

Definition hex_of_byte (b : byte) : string :=
  String (hex_digit (byte_to_Z b / 16))
         (String (hex_digit (byte_to_Z b mod 16)) EmptyString).

Definition toString_hex (b : Buffer) (start end_ : nat) : string :=
  String.concat "" (map hex_of_byte (Buffer_slice b start end_)).

(** Decimal rendering of a non-negative number, as [+] does when it
    concatenates a number to a string. *)
Definition decimal (z : Z) : string :=
  NilZero.string_of_uint (N.to_uint (Z.to_N z)).

(** ** Events the transport emits *)

Inductive Event : Type :=
| Message (tag : Z) (payload : Buffer)
| Debug (text : string) (level : option Z).

(** ** Constants *)

Definition TESSEL_VID : Z := 0x1d50.
Definition TESSEL_PID : Z := 0x6097.
Definition TRANSFER_SIZE : Z := 4096.

(** ** MessagesIn: reassembly of inbound frames

    The ['data'] handler installed by [_initMessageInEndpoint].  [buffers] is
    the array the closure keeps between calls; the handler returns the array
    as it leaves it, the events it emitted and how it completed. *)

Record Handled : Type := mkHandled {
  kept : list Buffer;
  emitted : list Event;
  completed : completion unit
}.

Definition OversizeMessage (first : Buffer) : JsError :=
  new_Error (String.append "Malformed message (oversize): "
                           (toString_hex first 0 8)).

Definition messagesIn_data (buffers : list Buffer) (data : Buffer) : Handled :=
  let buffers := buffers ++ [data] in
  if Buffer_length data <? TRANSFER_SIZE then
    let buffer := Buffer_concat buffers in
    if Buffer_length buffer >? 0 then
      match readUInt32LE buffer 0 with
      | Throw e => mkHandled buffers [] (Throw e)
      | Normal length =>
          match readUInt32LE buffer 4 with
          | Throw e => mkHandled buffers [] (Throw e)
          | Normal tag =>
              let buffer := Buffer_slice_from buffer 8 in
              mkHandled [] [Message tag buffer] (Normal tt)
          end
      end
    else mkHandled [] [] (Normal tt)
  else if Z.of_nat (List.length buffers) * TRANSFER_SIZE >? 32 * 1024 * 1024 then
    mkHandled buffers [] (Throw (OversizeMessage (nth 0 buffers [])))
  else mkHandled buffers [] (Normal tt).

(** The endpoint delivers chunks one by one; an exception thrown by the
    handler is not caught anywhere, so delivery stops there. *)
Fixpoint messagesIn_feed (buffers : list Buffer) (chunks : list Buffer)
  : Handled :=
  match chunks with
  | [] => mkHandled buffers [] (Normal tt)
  | data :: rest =>
      let h := messagesIn_data buffers data in
      match completed h with
      | Normal _ =>
          let h' := messagesIn_feed (kept h) rest in
          mkHandled (kept h') (emitted h ++ emitted h') (completed h')
      | Throw e => h
      end
  end.

(** The stream starts with an empty array. *)
Definition messagesIn_stream (chunks : list Buffer) : Handled :=
  messagesIn_feed [] chunks.

(** ** MessagesOut: the post-message encoder *)

(** The state of a promise. *)
Inductive Promise (A : Type) : Type :=
| Pending
| Fulfilled (v : A)
| Rejected (e : JsError).
Arguments Pending {A}.
Arguments Fulfilled {A} v.
Arguments Rejected {A} e.

(** [resolve(v)] and [reject(e)] settle a pending promise and do nothing to a
    settled one. *)
Definition resolve {A : Type} (v : A) (p : Promise A) : Promise A :=
  match p with
  | Pending => Fulfilled v
  | _ => p
  end.

Definition reject {A : Type} (e : JsError) (p : Promise A) : Promise A :=
  match p with
  | Pending => Rejected e
  | _ => p
  end.

(** The part of [_postMessage] that does not look at the transport: the
    header and the payload it builds, and how the callback of the transfer
    settles the promise once it is called with [err].  What the method does
    on a given transport object, whose messages-out endpoint may be missing,
    is [Transport._postMessage] below, which is built on this. *)
Record Posted : Type := mkPosted {
  outbound : Buffer;
  posted : Promise unit
}.

Definition _postMessage (mem : Buffer) (tag : Z) (data : option Buffer)
           (err : option JsError) : completion Posted :=
  let header := new_Buffer 8 mem in
  let data := match data with Some d => d | None => new_Buffer 0 [] end in
  header <- writeUInt32LE header (Buffer_length data) 0 ;;
  header <- writeUInt32LE header tag 4 ;;
  let payload := Buffer_concat [header; data] in
  let p := Pending in
  let p := match err with Some e => reject e p | None => p end in
  let p := resolve tt p in
  Normal (mkPosted payload p).

(** The part of [_controlTransfer] that does not look at the transport: the
    arguments for [device.controlTransfer] and how its callback settles the
    promise once it is called with [err] and [reply].  What the method does on
    a given transport object, which may hold no device, is
    [Transport._controlTransfer] below, which is built on this. *)
Record Controlled : Type := mkControlled {
  bmRequestType : option Z;
  bRequest : Z;
  wValue : Z;
  wIndex : Z;
  data_or_length : option Buffer;
  controlled : Promise (option Buffer)
}.

Definition _controlTransfer (direction : option Z) (tag : Z)
           (data : option Buffer) (err : option JsError)
           (reply : option Buffer) : Controlled :=
  let p := Pending in
  let p := match err with Some e => reject e p | None => p end in
  let p := resolve reply p in
  mkControlled direction tag 0 0 data p.

(** *** Dispatch on the tag

    The tags are constants of the [Connection] module, which is not among
    the sources; they are parameters here.  [send] below dispatches to the
    two parts above; [Transport.send] is the method on a transport
    object. *)

Inductive Method : Type := POST_MESSAGE | CONTROL_TRANSFER.

Record TagData : Type := mkTagData {
  method : Method;
  direction : option Z
}.

Definition LIBUSB_REQUEST_TYPE_VENDOR : Z := 0x40.
Definition LIBUSB_RECIPIENT_DEVICE : Z := 0x00.
Definition LIBUSB_ENDPOINT_OUT : Z := 0x00.
Definition LIBUSB_ENDPOINT_IN : Z := 0x80.

Definition VENDOR_REQ_OUT : Z :=
  Z.lor (Z.lor LIBUSB_REQUEST_TYPE_VENDOR LIBUSB_RECIPIENT_DEVICE)
        LIBUSB_ENDPOINT_OUT.
Definition VENDOR_REQ_IN : Z :=
  Z.lor (Z.lor LIBUSB_REQUEST_TYPE_VENDOR LIBUSB_RECIPIENT_DEVICE)
        LIBUSB_ENDPOINT_IN.

Inductive Sent : Type :=
| ByPost (p : Posted)
| ByControl (c : Controlled).

Section TagDispatch.
Variables TAG_KILL TAG_FLASH TAG_RUN : Z.

(** The object literal filled by three assignments, the later ones
    overwriting the earlier ones on equal keys. *)
Definition TAG_METHOD_MAP (tag : Z) : option TagData :=
  if tag =? TAG_RUN then Some (mkTagData POST_MESSAGE None)
  else if tag =? TAG_FLASH then Some (mkTagData POST_MESSAGE None)
  else if tag =? TAG_KILL
       then Some (mkTagData CONTROL_TRANSFER (Some VENDOR_REQ_OUT))
  else None.

Definition send (mem : Buffer) (tag : Z) (data : option Buffer)
           (err : option JsError) (reply : option Buffer)
  : completion Sent :=
  match TAG_METHOD_MAP tag with
  | None =>
      Throw (mkError TypeError "Cannot read property 'method' of undefined")
  | Some tagData =>
      match method tagData with
      | POST_MESSAGE =>
          p <- _postMessage mem tag data err ;; Normal (ByPost p)
      | CONTROL_TRANSFER =>
          Normal (ByControl
                    (_controlTransfer (direction tagData) tag data err reply))
      end
  end.
End TagDispatch.

(** ** Log: the stream of diagnostic records

    The ['data'] handler installed by [_initLogEndpoint].  The UTF-8 decoder
    of the runtime is a parameter. *)

(** [v === n] for a value read out of a buffer ([None] is [undefined]). *)
Definition strict_eq (v : option Z) (n : Z) : bool :=
  match v with
  | Some z => z =? n
  | None => false
  end.

Definition show (v : option Z) : string :=
  match v with
  | Some z => decimal z
  | None => "undefined"
  end.

Definition MalformedLogStream (pos : nat) (got : option Z) : JsError :=
  new_Error
    (String.append "Expected STX at "
       (String.append (decimal (Z.of_nat pos))
          (String.append ", got " (String.append (show got) "instead")))).

(** The inner [for] loop: [n] is the number of positions left before
    [data.length]; the result is the value of [i] when the loop is left. *)
Fixpoint scan_STX (data : Buffer) (n : nat) (i : nat) : nat :=
  match n with
  | O => i
  | S n' => if strict_eq (Buffer_get data i) 1 then i
            else scan_STX data n' (S i)
  end.

Section LogEndpoint.
Variable utf8_decode : Buffer -> string.

(** [buf.toString('utf8', start, end)]: an empty range is the empty string. *)
Definition toString_utf8 (b : Buffer) (start end_ : nat) : string :=
  let end_ := Nat.min end_ (List.length b) in
  if (end_ <=? start)%nat then ""
  else utf8_decode (Buffer_slice b start end_).

(** The [while] loop; every turn moves [pos] forward, so [fuel] turns are
    enough for a buffer of [fuel] bytes.  [None] is for fuel that ran out. *)
Fixpoint log_while (fuel : nat) (data : Buffer) (pos : nat)
         (events : list Event) : option (list Event * completion unit) :=
  if (pos <? List.length data)%nat then
    match fuel with
    | O => None
    | S fuel' =>
        if negb (strict_eq (Buffer_get data pos) 1)
        then Some (events,
                   Throw (MalformedLogStream pos (Buffer_get data pos)))
        else
          let logLevel := Buffer_get data (pos + 1) in
          let l := List.length data in
          let i := scan_STX data (l - (pos + 2)) (pos + 2) in
          let message := toString_utf8 data (pos + 2) i in
          log_while fuel' data i (events ++ [Debug message logLevel])
    end
  else Some (events, Normal tt).

Definition log_data (data : Buffer) : option (list Event * completion unit) :=
  log_while (List.length data) data 0 [].
End LogEndpoint.

(** ** Device discovery *)

Record DeviceDescriptor : Type := mkDescriptor {
  idVendor : Z;
  idProduct : Z;
  bcdDevice : Z;
  iSerialNumber : Z
}.

Record Device : Type := mkDevice {
  busNumber : Z;
  deviceAddress : Z;
  deviceDescriptor : DeviceDescriptor
}.

(** The descriptor fields are unsigned 16-bit numbers. *)
Definition uint16 (z : Z) : Prop := 0 <= z < 65536.

Definition descriptor_ok (d : Device) : Prop :=
  uint16 (idVendor (deviceDescriptor d))
  /\ uint16 (idProduct (deviceDescriptor d))
  /\ uint16 (bcdDevice (deviceDescriptor d)).

(** [a >> n]: the left operand as a signed 32-bit integer, shifted by the
    low five bits of the right one. *)
Definition ToInt32 (z : Z) : Z :=
  let m := z mod 2 ^ 32 in
  if m >=? 2 ^ 31 then m - 2 ^ 32 else m.

Definition js_shr (a n : Z) : Z := Z.shiftr (ToInt32 a) (n mod 32).

(** An object is truthy, [undefined] is not. *)
Definition truthy {A : Type} (v : option A) : bool :=
  match v with
  | Some _ => true
  | None => false
  end.

Definition getDevices (deviceList : list Device) : list Device :=
  filter
    (fun device =>
       truthy
         (if (idVendor (deviceDescriptor device) =? TESSEL_VID)
             && (idProduct (deviceDescriptor device) =? TESSEL_PID)
             && negb (js_shr (bcdDevice (deviceDescriptor device)) 8 =? 0)
          then Some device
          else None))
    deviceList.

Definition DeviceNotFound : JsError := new_Error "No Tessel devices found".

(** [devices[0]] is [undefined] ([None]) on an empty array. *)
Definition getFirstDevice (deviceList : list Device)
  : completion (option Device) :=
  let devices := getDevices deviceList in
  if (List.length devices =? 0)%nat then Throw DeviceNotFound
  else Normal (nth_error devices 0).

(** ** The transport object and the calls it makes into the usb binding *)

Record Interface : Type := mkInterface { interfaceNumber : Z }.

Record Endpoints : Type := mkEndpoints {
  log : option nat;
  messagesIn : option nat;
  messagesOut : option nat
}.

Record USBTransport : Type := mkTransport {
  _device : option Device;
  deviceSerial : option string;
  _endpoints : Endpoints;
  _interface : option Interface
}.

(** [new USBTransport(config)] *)
Definition new_USBTransport : USBTransport :=
  mkTransport None None (mkEndpoints None None None) None.

Inductive UsbCall : Type :=
| device_open
| device_timeout (ms : Z)
| device_getStringDescriptor (index : Z)
| interface_claim
| interface_setAltSetting (alt : Z)
| endpoint_startStream (endpoint : nat) (nTransfers size : Z)
| interface_release (closeEndpoints : bool)
| device_close.

(** The transport object together with the calls made so far, oldest first. *)
Record World : Type := mkWorld {
  this : USBTransport;
  calls : list UsbCall
}.

(** *** Promise executors and callbacks

    A piece of code that runs with the [resolve] and [reject] of one promise
    in scope: it changes the world, may settle the promise, and completes
    normally or by throwing. *)

Record Ran (R A : Type) : Type := mkRan {
  world : World;
  promise : Promise R;
  value : completion A
}.
Arguments mkRan {R A} world promise value.
Arguments world {R A} r.
Arguments promise {R A} r.
Arguments value {R A} r.

Definition Exec (R A : Type) : Type := World -> Promise R -> Ran R A.

Definition ret {R A : Type} (a : A) : Exec R A :=
  fun w p => mkRan w p (Normal a).

Definition throw {R A : Type} (e : JsError) : Exec R A :=
  fun w p => mkRan w p (Throw e).

Definition then_ {R A B : Type} (c : Exec R A) (k : A -> Exec R B) : Exec R B :=
  fun w p =>
    let r := c w p in
    match value r with
    | Normal a => k a (world r) (promise r)
    | Throw e => mkRan (world r) (promise r) (Throw e)
    end.

Notation "x <~ c ;; k" := (then_ c (fun x => k))
  (at level 61, c at next level, right associativity).
Notation "c ;;; k" := (then_ c (fun _ => k))
  (at level 61, right associativity).

Definition try_catch {R A : Type} (body : Exec R A) (handler : JsError -> Exec R A)
  : Exec R A :=
  fun w p =>
    let r := body w p in
    match value r with
    | Normal a => r
    | Throw e => handler e (world r) (promise r)
    end.

Definition do_resolve {R : Type} (v : R) : Exec R unit :=
  fun w p => mkRan w (resolve v p) (Normal tt).

Definition do_reject {R : Type} (e : JsError) : Exec R unit :=
  fun w p => mkRan w (reject e p) (Normal tt).

Definition get_this {R : Type} : Exec R USBTransport :=
  fun w p => mkRan w p (Normal (this w)).

Definition set_this {R : Type} (f : USBTransport -> USBTransport) : Exec R unit :=
  fun w p => mkRan (mkWorld (f (this w)) (calls w)) p (Normal tt).

(** A call into the binding that returns normally. *)
Definition usb {R : Type} (c : UsbCall) : Exec R unit :=
  fun w p => mkRan (mkWorld (this w) (calls w ++ [c])) p (Normal tt).

(** A call into the binding that throws when [err] is an error. *)
Definition usb_throwing {R : Type} (c : UsbCall) (err : option JsError)
  : Exec R unit :=
  usb c ;;;
  match err with
  | Some e => throw e
  | None => ret tt
  end.

(** [new Promise(executor)]: an exception that leaves the executor rejects
    the promise (if it is still pending). *)
Definition new_Promise {R A : Type} (executor : Exec R A) (w : World)
  : Ran R A :=
  let r := executor w Pending in
  match value r with
  | Normal _ => r
  | Throw e => mkRan (world r) (reject e (promise r)) (Throw e)
  end.

Definition null_property (prop : string) : JsError :=
  mkError TypeError
          (String.append "Cannot read property '"
                         (String.append prop "' of null")).

Definition undefined_property (prop : string) : JsError :=
  mkError TypeError
          (String.append "Cannot read property '"
                         (String.append prop "' of undefined")).

(** The exception, if any, that a callback lets escape to the event loop. *)
Definition uncaught {A : Type} (c : completion A) : list JsError :=
  match c with
  | Normal _ => []
  | Throw e => [e]
  end.

(** ** close() *)

(** The executor of the promise [close] returns.  Nothing stops the code
    after [resolve()] on a missing interface: it goes on to read [release]
    from it, which throws. *)
Definition close_executor : Exec unit unit :=
  t <~ get_this ;;
  (if negb (truthy (_interface t)) then do_resolve tt else ret tt) ;;;
  match _interface t with
  | None => throw (null_property "release")
  | Some _ => usb (interface_release true)
  end.

(** The callback [release] is given; [err] is what the binding reports. *)
Definition close_released (err : option JsError) : Exec unit unit :=
  t <~ get_this ;;
  (if truthy (_device t) then usb device_close else ret tt) ;;;
  set_this (fun t => mkTransport (_device t) (deviceSerial t) (_endpoints t) None) ;;;
  do_resolve tt.

(** [close()]: the world and the promise once everything has run, and the
    exceptions that reached the event loop.  [release] is called, and so
    calls back, exactly when the executor ran to its end. *)
Record Closing : Type := mkClosing {
  c_world : World;
  c_promise : Promise unit;
  c_uncaught : list JsError
}.

Definition close (err : option JsError) (w : World) : Closing :=
  let r := new_Promise close_executor w in
  match value r with
  | Normal _ =>
      let r' := close_released err (world r) (promise r) in
      mkClosing (world r') (promise r') (uncaught (value r'))
  | Throw _ => mkClosing (world r) (promise r) []
  end.

(** ** init() *)

(** What the binding and the device do during [init]. *)
Record UsbEnv : Type := mkEnv {
  deviceList : list Device;
  open_error : option JsError;
  serial_reply : JsError + string;
  claim_error : option JsError;
  altSetting_error : option JsError;
  interface_endpoints : nat;
  serial_first : bool
}.

(** *** _getDeviceSerial *)

Definition serial_executor : Exec string unit :=
  t <~ get_this ;;
  match _device t with
  | None => throw (null_property "getStringDescriptor")
  | Some device =>
      usb (device_getStringDescriptor (iSerialNumber (deviceDescriptor device)))
  end.

Definition serial_callback (reply : JsError + string) : Exec string unit :=
  match reply with
  | inl err => do_reject err
  | inr serialNumber =>
      set_this (fun t => mkTransport (_device t) (Some serialNumber)
                                     (_endpoints t) (_interface t)) ;;;
      do_resolve serialNumber
  end.

(** *** _initEndpoints *)

Definition _initLogEndpoint {R : Type} : Exec R unit :=
  t <~ get_this ;;
  match log (_endpoints t) with
  | None => throw (undefined_property "startStream")
  | Some endpoint => usb (endpoint_startStream endpoint 4 TRANSFER_SIZE)
  end.

Definition _initMessageInEndpoint {R : Type} : Exec R unit :=
  t <~ get_this ;;
  match messagesIn (_endpoints t) with
  | None => throw (undefined_property "startStream")
  | Some endpoint => usb (endpoint_startStream endpoint 2 TRANSFER_SIZE)
  end.

Definition _initMessageOutEndpoint {R : Type} : Exec R unit := ret tt.

Definition _initEndpoints {R : Type} : Exec R unit :=
  _initLogEndpoint ;;; _initMessageInEndpoint ;;; _initMessageOutEndpoint.

(** *** _getDeviceInterface *)

Definition DeviceBusy : JsError :=
  new_Error "Device is in use by another process".

Definition interface_executor (env : UsbEnv) : Exec unit unit :=
  t <~ get_this ;;
  match _device t with
  | None => throw (null_property "interface")
  | Some device =>
      set_this (fun t => mkTransport (_device t) (deviceSerial t) (_endpoints t)
                                     (Some (mkInterface 0))) ;;;
      try_catch
        (usb_throwing interface_claim (claim_error env))
        (fun e =>
           (if String.eqb (message e) "LIBUSB_ERROR_BUSY"
            then do_reject DeviceBusy else ret tt) ;;;
           do_reject e) ;;;
      usb (interface_setAltSetting 1)
  end.

(** [interface.endpoints[n]] *)
Definition endpoint_of (env : UsbEnv) (n : nat) : option nat :=
  if (n <? interface_endpoints env)%nat then Some n else None.

Definition interface_callback (env : UsbEnv) (err : option JsError)
  : Exec unit unit :=
  match err with
  | Some e => do_reject e
  | None => ret tt
  end ;;;
  set_this (fun t => mkTransport (_device t) (deviceSerial t)
                       (mkEndpoints (endpoint_of env 0) (endpoint_of env 1)
                                    (endpoint_of env 2))
                       (_interface t)) ;;;
  _initEndpoints ;;;
  do_resolve tt.

(** *** init *)

(** [Promise.all] of two promises, one step of it: [prev] is its state so
    far, the other two the states of the promises it waits for. *)
Definition Promise_all2 {A B : Type} (prev : Promise (A * B))
           (p1 : Promise A) (p2 : Promise B) : Promise (A * B) :=
  match prev with
  | Pending =>
      match p1, p2 with
      | Rejected e, _ => Rejected e
      | _, Rejected e => Rejected e
      | Fulfilled a, Fulfilled b => Fulfilled (a, b)
      | _, _ => Pending
      end
  | settled => settled
  end.

(** The two promises [init] starts, or nothing when its executor did not
    get that far. *)
Definition init_executor (env : UsbEnv)
  : Exec USBTransport (option (Promise string * Promise unit)) :=
  try_catch
    (match getFirstDevice (deviceList env) with
     | Normal d =>
         set_this (fun t => mkTransport d (deviceSerial t) (_endpoints t)
                                        (_interface t))
     | Throw e => throw e
     end)
    (fun e => do_reject e) ;;;
  t <~ get_this ;;
  match _device t with
  | None => throw (null_property "open")
  | Some device =>
      usb_throwing device_open (open_error env) ;;;
      usb (device_timeout 10000) ;;;
      fun w p =>
        let rs := new_Promise serial_executor w in
        let ri := new_Promise (interface_executor env) (world rs) in
        mkRan (world ri) p (Normal (Some (promise rs, promise ri)))
  end.

(** A session that is being set up: the world, the two promises [init]
    waits for, [Promise.all] of them, the promise [init] returned, the events
    emitted and the exceptions that reached the event loop. *)
Record Session : Type := mkSession {
  s_world : World;
  s_serial : Promise string;
  s_interface : Promise unit;
  s_all : Promise (string * unit);
  s_init : Promise USBTransport;
  s_emitted : list Event;
  s_uncaught : list JsError
}.

(** The reactions that run once the call stack is empty: [Promise.all]
    looks at its two promises, and the promise of [init], resolved with
    [all.then(...)], follows it.  The array [[serial, undefined]] is what the
    [then] callback concatenates to its text. *)
Definition settle (s : Session) : Session :=
  let all := Promise_all2 (s_all s) (s_serial s) (s_interface s) in
  match s_all s, all with
  | Pending, Fulfilled (serial, _) =>
      mkSession (s_world s) (s_serial s) (s_interface s) all
                (resolve (this (s_world s)) (s_init s))
                (s_emitted s ++
                 [Debug (String.append "Connected to device "
                                       (String.append serial ",")) None])
                (s_uncaught s)
  | Pending, Rejected e =>
      mkSession (s_world s) (s_serial s) (s_interface s) all
                (reject e (s_init s)) (s_emitted s) (s_uncaught s)
  | _, _ =>
      mkSession (s_world s) (s_serial s) (s_interface s) all
                (s_init s) (s_emitted s) (s_uncaught s)
  end.

(** The binding calls back with the serial number (or an error). *)
Definition on_serial (env : UsbEnv) (s : Session) : Session :=
  let r := serial_callback (serial_reply env) (s_world s) (s_serial s) in
  settle (mkSession (world r) (promise r) (s_interface s) (s_all s) (s_init s)
                    (s_emitted s) (s_uncaught s ++ uncaught (value r))).

(** The binding calls back from [setAltSetting]. *)
Definition on_altSetting (env : UsbEnv) (s : Session) : Session :=
  let r := interface_callback env (altSetting_error env)
                              (s_world s) (s_interface s) in
  settle (mkSession (world r) (s_serial s) (promise r) (s_all s) (s_init s)
                    (s_emitted s) (s_uncaught s ++ uncaught (value r))).

(** [init()]: the successive sessions, one per turn of the event loop: after
    the synchronous part and its reactions, then after each of the two
    callbacks, in the order the environment delivers them. *)
Definition init (env : UsbEnv) (w : World) : list Session :=
  let r := new_Promise (init_executor env) w in
  match value r with
  | Normal (Some (ps, pi)) =>
      let s0 := settle (mkSession (world r) ps pi Pending (promise r) [] []) in
      let s1 := if serial_first env then on_serial env s0
                else on_altSetting env s0 in
      let s2 := if serial_first env then on_altSetting env s1
                else on_serial env s1 in
      [s0; s1; s2]
  | _ =>
      [mkSession (world r) Pending Pending Pending (promise r) [] []]
  end.

(** The transport is ready once the promise of [init] is fulfilled. *)
Definition Ready (s : Session) : Prop :=
  exists t, s_init s = Fulfilled t.

(** * Notions the properties are stated with *)

(** ** Device discovery *)

(** The high byte of a 16-bit number. *)
Definition high_byte (z : Z) : Z := (z / 256) mod 256.

(** A Tessel that is not in bootloader mode. *)
Definition tessel_running (d : Device) : bool :=
  (idVendor (deviceDescriptor d) =? 0x1D50)
  && (idProduct (deviceDescriptor d) =? 0x6097)
  && negb (high_byte (bcdDevice (deviceDescriptor d)) =? 0).

Definition sample_tessel : Device :=
  mkDevice 1 4 (mkDescriptor 0x1D50 0x6097 0x0100 3).
Definition sample_bootloader : Device :=
  mkDevice 1 5 (mkDescriptor 0x1D50 0x6097 0x0042 3).
Definition sample_other : Device :=
  mkDevice 2 1 (mkDescriptor 0x05AC 0x6097 0x0100 0).
Definition sample_devices : list Device :=
  [sample_other; sample_bootloader; sample_tessel; sample_bootloader].


(** ** Log records *)

(** A record on the wire: the marker, the severity byte, the text. *)
Definition STX : byte := x01.

Definition log_record (r : byte * Buffer) : Buffer := STX :: fst r :: snd r.

(** A chunk made of whole records, one after the other. *)
Definition log_chunk (records : list (byte * Buffer)) : Buffer :=
  flat_map log_record records.

(** The text of a record does not contain the marker. *)
Definition text_ok (r : byte * Buffer) : Prop := ~ In STX (snd r).

(** The UTF-8 decoding of the bytes of a text; no bytes, no characters. *)
Definition decode_text (utf8_decode : Buffer -> string) (text : Buffer)
  : string :=
  match text with
  | [] => ""
  | _ => utf8_decode text
  end.

(** The event a record is to be delivered as. *)
Definition debug_of (utf8_decode : Buffer -> string) (r : byte * Buffer)
  : Event :=
  Debug (decode_text utf8_decode (snd r)) (Some (byte_to_Z (fst r))).

(** A decoder good enough for samples: it reads ASCII and puts a question
    mark for every other byte. *)
Definition ascii_decode (b : Buffer) : string :=
  string_of_list_byte
    (map (fun c => if byte_to_Z c <? 128 then c else x3f) b).

Definition sample_records : list (byte * Buffer) :=
  [(x02, list_byte_of_string "boot"); (x01, []);
   (x16, list_byte_of_string "ready 1/2")].

(** ** Message frames *)

(** An unsigned 32-bit number as four bytes, least significant first. *)
Definition le32_encode (v : Z) : Buffer :=
  [byte_of_Z v; byte_of_Z (v / 2 ^ 8); byte_of_Z (v / 2 ^ 16);
   byte_of_Z (v / 2 ^ 24)].

(** The number a run of bytes stands for, least significant byte first. *)
Definition le_decode (bytes : Buffer) : Z :=
  fold_right (fun b acc => byte_to_Z b + 256 * acc) 0 bytes.

(** The wire form of a frame: length of the payload, tag, payload. *)
Definition frame_bytes (tag : Z) (payload : Buffer) : Buffer :=
  le32_encode (Buffer_length payload) ++ le32_encode tag ++ payload.

(** A frame is valid when it has its 8-byte header and the length declared
    in bytes 0-3 is that of what follows the header. *)
Definition valid_frame (b : Buffer) : Prop :=
  8 <= Buffer_length b
  /\ le_decode (Buffer_slice b 0 4) = Buffer_length b - 8.

(** A chunk of the maximum size, and a short one. *)
Definition full_chunk (c : Buffer) : Prop := Buffer_length c = TRANSFER_SIZE.
Definition short_chunk (c : Buffer) : Prop := Buffer_length c < TRANSFER_SIZE.

(** The chunks a transfer arrives in: full ones, then a short one (which
    is empty when the transfer is a whole number of full chunks). *)
Definition chunked (chunks : list Buffer) (transfer : Buffer) : Prop :=
  exists fulls last,
    chunks = fulls ++ [last]
    /\ Forall full_chunk fulls
    /\ short_chunk last
    /\ Buffer_concat chunks = transfer.

(** The number of full chunks the handler takes without a short one. *)
Definition MAX_FULL_CHUNKS : Z := 8192.

(** The chunks the endpoint delivers for one transfer, by the bulk-transfer
    convention: as many full chunks as there are, then what is left, be it
    nothing.  Every full chunk takes bytes away, so [fuel] equal to the
    length of the transfer is enough. *)
Fixpoint split_transfer (fuel : nat) (transfer : Buffer) : list Buffer :=
  if Buffer_length transfer <? TRANSFER_SIZE then [transfer]
  else
    match fuel with
    | O => [transfer]
    | S fuel' =>
        firstn (Z.to_nat TRANSFER_SIZE) transfer
        :: split_transfer fuel' (skipn (Z.to_nat TRANSFER_SIZE) transfer)
    end.

Definition usb_chunks (transfer : Buffer) : list Buffer :=
  split_transfer (List.length transfer) transfer.

(** A chunk that stops inside the header, and a frame whose header
    declares 5 bytes of payload but carries 2. *)
Definition sample_truncated : Buffer := [x05; x00; x00; x00; x55].
Definition sample_mismatch : Buffer :=
  [x05; x00; x00; x00; x55; x00; x00; x00; x68; x69].

(** A full chunk that starts with eight known bytes, and a stream of 8193
    such chunks with no short one. *)
Definition sample_full : Buffer :=
  list_byte_of_string "Tessel!!" ++ repeat x00 (Z.to_nat 4088).
Definition sample_flood : list Buffer :=
  sample_full :: repeat sample_full (Z.to_nat 8192).

(** A small frame (tag 0x55, payload "hi") in one short chunk. *)
Definition sample_frame : Buffer :=
  [x02; x00; x00; x00; x55; x00; x00; x00; x68; x69].

(** A frame that fills one full chunk and three bytes of the next. *)
Definition sample_long_payload : Buffer := repeat x2a (Z.to_nat 4091).
Definition sample_long_first : Buffer :=
  [xfb; x0f; x00; x00; x55; x00; x00; x00] ++ repeat x2a (Z.to_nat 4088).
Definition sample_long_last : Buffer := [x2a; x2a; x2a].

(** A frame of exactly 8193 full chunks: the header declares 33,558,520
    bytes of payload under tag 0x55, and the payload is that many zero bytes.
    Its transfer ends with an empty chunk. *)
Definition big_payload : Buffer := repeat x00 (Z.to_nat 33558520).
Definition big_first : Buffer :=
  [xf8; x0f; x00; x02; x55; x00; x00; x00] ++ repeat x00 (Z.to_nat 4088).
Definition zero_chunk : Buffer := repeat x00 (Z.to_nat 4096).
Definition big_fulls : list Buffer :=
  big_first :: repeat zero_chunk (Z.to_nat 8192).
Definition big_chunks : list Buffer := big_fulls ++ [[]].

(** ** Sessions *)

(** A fresh transport object, no call made yet. *)
Definition fresh_world : World := mkWorld new_USBTransport [].

(** The error the binding throws when another process holds the interface,
    and one it throws for another reason. *)
Definition LIBUSB_ERROR_BUSY : JsError := new_Error "LIBUSB_ERROR_BUSY".
Definition LIBUSB_ERROR_ACCESS : JsError := new_Error "LIBUSB_ERROR_ACCESS".

(** An environment with one Tessel whose interface cannot be claimed. *)
Definition sample_env (claim : JsError) : UsbEnv :=
  mkEnv sample_devices None (inr "TM-00-04") (Some claim)
        (Some (new_Error "LIBUSB_ERROR_NOT_FOUND")) 0 true.

(** * Further notions *)

(** ** The sending methods on a transport object

    [_postMessage], [_controlTransfer] and [send] as methods of a transport
    [t]: the promise executors read [t._endpoints.messagesOut] and
    [t._device], and an exception in an executor (a method called on
    [undefined] or [null]) rejects the promise instead of starting a
    transfer. *)

Module Transport.

(** What [_postMessage] has done when it returns: the endpoint and the bytes
    given to [transferWithZLP], if it got that far, and its promise once the
    transfer (if any) has called back. *)
Record Sending : Type := mkSending {
  handed : option (nat * Buffer);
  sending : Promise unit
}.

Definition _postMessage (t : USBTransport) (mem : Buffer) (tag : Z)
           (data : option Buffer) (err : option JsError)
  : completion Sending :=
  p <- _postMessage mem tag data err ;;
  match messagesOut (_endpoints t) with
  | None =>
      Normal (mkSending None
                        (reject (undefined_property "transferWithZLP") Pending))
  | Some endpoint =>
      Normal (mkSending (Some (endpoint, outbound p)) (posted p))
  end.

(** What [_controlTransfer] has done when it returns: the device and the
    arguments given to [controlTransfer], if it got that far, and its
    promise once the transfer (if any) has called back. *)
Record Transferring : Type := mkTransferring {
  issued : option (Device * Controlled);
  transferring : Promise (option Buffer)
}.

Definition _controlTransfer (t : USBTransport) (direction : option Z) (tag : Z)
           (data : option Buffer) (err : option JsError)
           (reply : option Buffer) : Transferring :=
  match _device t with
  | None =>
      mkTransferring None (reject (null_property "controlTransfer") Pending)
  | Some device =>
      let c := _controlTransfer direction tag data err reply in
      mkTransferring (Some (device, c)) (controlled c)
  end.

Inductive Sent : Type :=
| Posting (s : Sending)
| Controlling (c : Transferring).

Definition send (TAG_KILL TAG_FLASH TAG_RUN : Z) (t : USBTransport)
           (mem : Buffer) (tag : Z) (data : option Buffer)
           (err : option JsError) (reply : option Buffer)
  : completion Sent :=
  match TAG_METHOD_MAP TAG_KILL TAG_FLASH TAG_RUN tag with
  | None =>
      Throw (mkError TypeError "Cannot read property 'method' of undefined")
  | Some tagData =>
      match method tagData with
      | POST_MESSAGE =>
          s <- _postMessage t mem tag data err ;; Normal (Posting s)
      | CONTROL_TRANSFER =>
          Normal (Controlling
                    (_controlTransfer t (direction tagData) tag data err reply))
      end
  end.

End Transport.

(** Posting messages one after the other, each transfer calling back
    without an error: the bytes given to the endpoint, message by message.
    There is no result if a call throws or gives nothing to an endpoint. *)
Fixpoint post_all (t : USBTransport) (mem : Buffer) (msgs : list (Z * Buffer))
  : option (list Buffer) :=
  match msgs with
  | [] => Some []
  | m :: rest =>
      match Transport._postMessage t mem (fst m) (Some (snd m)) None with
      | Normal s =>
          match Transport.handed s with
          | Some (_, bytes) => option_map (cons bytes) (post_all t mem rest)
          | None => None
          end
      | Throw _ => None
      end
  end.

(** ** Whether the interface was ever claimed *)



(** ** Sequences of messages *)

(** A message the round trip is good for: a 32-bit tag and a frame shorter
    than 8193 full chunks. *)
Definition postable (m : Z * Buffer) : Prop :=
  0 <= fst m < 2 ^ 32
  /\ Buffer_length (snd m) + 8 < (MAX_FULL_CHUNKS + 1) * TRANSFER_SIZE.

Definition Message_of (m : Z * Buffer) : Event := Message (fst m) (snd m).

(** The number of short chunks in a run of chunks. *)
Definition short_count (chunks : list Buffer) : nat :=
  List.length (filter (fun c => Buffer_length c <? TRANSFER_SIZE) chunks).

Definition sample_messages : list (Z * Buffer) :=
  [(0x55, list_byte_of_string "hi"); (0x50, []); (0x55, sample_long_payload)].

(** No chunk is longer than what the stream was started with. *)
Definition chunk_ok (c : Buffer) : Prop := Buffer_length c <= TRANSFER_SIZE.

(** The largest payload the handler lets through. *)
Definition MAX_PAYLOAD : Z := MAX_FULL_CHUNKS * TRANSFER_SIZE + (TRANSFER_SIZE - 1) - 8.

(** ** Log chunks in general *)

(** What is left of a chunk after its whole records: nothing, or a marker
    with nothing behind it. *)
Inductive chunk_tail : Type := tail_none | tail_marker.

Definition tail_bytes (t : chunk_tail) : Buffer :=
  match t with
  | tail_none => []
  | tail_marker => [STX]
  end.

(** A marker with nothing behind it is delivered with an empty text and no
    level ([undefined]). *)
Definition tail_events (t : chunk_tail) : list Event :=
  match t with
  | tail_none => []
  | tail_marker => [Debug "" None]
  end.

(** ** Sessions that come up *)

(** The transport object once [init] has gone through. *)
Definition ready_transport (env : UsbEnv) (d : Device) (serial : string)
  : USBTransport :=
  mkTransport (Some d) (Some serial)
              (mkEndpoints (Some 0%nat) (Some 1%nat) (endpoint_of env 2))
              (Some (mkInterface 0)).

(** The calls [init] makes up to the callback of [setAltSetting], and the
    ones that callback makes. *)
Definition setup_calls (d : Device) : list UsbCall :=
  [device_open; device_timeout 10000;
   device_getStringDescriptor (iSerialNumber (deviceDescriptor d));
   interface_claim; interface_setAltSetting 1].

Definition stream_calls : list UsbCall :=
  [endpoint_startStream 0 4 4096; endpoint_startStream 1 2 4096].

(** The text of the event [init] emits: the serial number followed by a
    comma, the array of the two results of [Promise.all] turned into a
    string. *)
Definition connected (serial : string) : Event :=
  Debug (String.append "Connected to device " (String.append serial ",")) None.

(** An environment in which everything works, the callbacks coming in the
    given order. *)
Definition working_env (serial_first : bool) : UsbEnv :=
  mkEnv sample_devices None (inr "TM-00-04") None None 3 serial_first.

(** An environment with no Tessel to talk to, and one whose Tessel does not
    open. *)
Definition deserted_env : UsbEnv :=
  mkEnv [sample_other; sample_bootloader] None (inr "TM-00-04") None None 3 true.
Definition locked_env : UsbEnv :=
  mkEnv sample_devices (Some LIBUSB_ERROR_ACCESS) (inr "TM-00-04") None None 3
        true.

(** A session in which nothing has happened. *)
Definition idle_session : Session :=
  mkSession fresh_world Pending Pending Pending Pending [] [].

(** Environments in which one thing goes wrong after the interface has been
    claimed: [setAltSetting] reports an error, the serial number cannot be
    read, the interface has no endpoint. *)
Definition LIBUSB_ERROR_IO : JsError := new_Error "LIBUSB_ERROR_IO".
Definition altfail_env : UsbEnv :=
  mkEnv sample_devices None (inr "TM-00-04") None (Some LIBUSB_ERROR_IO) 3 false.
Definition serialfail_env : UsbEnv :=
  mkEnv sample_devices None (inl LIBUSB_ERROR_IO) None None 3 true.
Definition bare_env : UsbEnv :=
  mkEnv sample_devices None (inr "TM-00-04") None None 0 true.

(** The transport holds device [d] and the object of interface 0. *)
Definition holds (d : Device) (w : World) : Prop :=
  _device (this w) = Some d /\ _interface (this w) = Some (mkInterface 0).


(** Tags for the examples of [send]. *)
Definition sample_TAG_KILL : Z := 0x10.
Definition sample_TAG_FLASH : Z := 0x50.
Definition sample_TAG_RUN : Z := 0x55.

(** A transport that came up. *)
Definition sample_transport : USBTransport :=
  ready_transport (working_env true) sample_tessel "TM-00-04".
(** * Properties *)

(** ** Device discovery *)

Lemma js_shr_8_uint16 (z : Z) : uint16 z -> js_shr z 8 = high_byte z.
Proof.
  unfold uint16, js_shr, ToInt32, high_byte. intros Hz.
  rewrite (Z.mod_small z (2 ^ 32)) by lia.
  destruct (z >=? 2 ^ 31) eqn:E; [apply Z.geb_le in E; lia|].
  change (8 mod 32) with 8.
  rewrite Z.shiftr_div_pow2 by lia.
  change (2 ^ 8) with 256.
  rewrite Z.mod_small; [reflexivity|].
  split; [apply Z.div_pos; lia | apply Z.div_lt_upper_bound; lia].
Qed.

Lemma getDevices_filter (deviceList : list Device) :
  Forall descriptor_ok deviceList ->
  getDevices deviceList = filter tessel_running deviceList.
Proof.
  unfold getDevices. intros Hok. apply filter_ext_in.
  intros d Hd. rewrite Forall_forall in Hok.
  destruct (Hok d Hd) as (_ & _ & Hbcd).
  unfold tessel_running, TESSEL_VID, TESSEL_PID.
  rewrite (js_shr_8_uint16 _ Hbcd).
  destruct (_ && _ && _); reflexivity.
Qed.

Lemma getFirstDevice_head (deviceList : list Device) :
  getFirstDevice deviceList =
  match getDevices deviceList with
  | [] => Throw DeviceNotFound
  | first :: _ => Normal (Some first)
  end.
Proof.
  unfold getFirstDevice. destruct (getDevices deviceList); reflexivity.
Qed.

(** C7: enumeration keeps, in order, exactly the devices with vendor id
    0x1D50, product id 0x6097 and a non-zero high byte of the firmware
    version; it is a plain (possibly empty) list, never an error; the first
    candidate is the head of that list, and [DeviceNotFound] is thrown if and
    only if the list is empty. *)
Theorem C7_device_enumeration (deviceList : list Device) :
  Forall descriptor_ok deviceList ->
  getDevices deviceList = filter tessel_running deviceList
  /\ (forall d, In d (getDevices deviceList) <->
                In d deviceList
                /\ idVendor (deviceDescriptor d) = 0x1D50
                /\ idProduct (deviceDescriptor d) = 0x6097
                /\ high_byte (bcdDevice (deviceDescriptor d)) <> 0)
  /\ ((forall d, In d deviceList -> tessel_running d = false) ->
      getDevices deviceList = [])
  /\ (forall first rest, getDevices deviceList = first :: rest ->
                         getFirstDevice deviceList = Normal (Some first))
  /\ (getFirstDevice deviceList = Throw DeviceNotFound <->
      getDevices deviceList = [])
  /\ (forall e, getFirstDevice deviceList = Throw e -> e = DeviceNotFound).
Proof.
  intros Hok. pose proof (getDevices_filter deviceList Hok) as Hf.
  repeat split.
  - exact Hf.
  - rewrite Hf in H. apply filter_In in H. tauto.
  - rewrite Hf in H. apply filter_In in H. destruct H as [_ H].
    unfold tessel_running in H.
    apply andb_prop in H as [H _]. apply andb_prop in H as [H _]. lia.
  - rewrite Hf in H. apply filter_In in H. destruct H as [_ H].
    unfold tessel_running in H.
    apply andb_prop in H as [H _]. apply andb_prop in H as [_ H]. lia.
  - rewrite Hf in H. apply filter_In in H. destruct H as [_ H].
    unfold tessel_running in H.
    apply andb_prop in H as [_ H]. apply negb_true_iff in H. lia.
  - intros (Hin & Hv & Hp & Hb). rewrite Hf. apply filter_In. split; [exact Hin|].
    unfold tessel_running. rewrite Hv, Hp.
    apply Z.eqb_neq in Hb. rewrite Hb. reflexivity.
  - intros Hnone. rewrite Hf.
    induction deviceList as [|d l IH]; [reflexivity|]. simpl.
    rewrite (Hnone d) by (left; reflexivity).
    apply IH.
    + inversion Hok; assumption.
    + apply getDevices_filter. inversion Hok; assumption.
    + intros d' Hd'. apply Hnone. right. exact Hd'.
  - intros first rest Hd. rewrite getFirstDevice_head, Hd. reflexivity.
  - rewrite getFirstDevice_head. destruct (getDevices deviceList); [reflexivity|discriminate].
  - intros Hd. rewrite getFirstDevice_head, Hd. reflexivity.
  - intros e. rewrite getFirstDevice_head.
    destruct (getDevices deviceList); intros He; [injection He; auto | discriminate].
Qed.

Lemma C7_device_enumeration_witness :
  Forall descriptor_ok sample_devices
  /\ getDevices sample_devices = [sample_tessel]
  /\ getFirstDevice sample_devices = Normal (Some sample_tessel)
  /\ getDevices [sample_other; sample_bootloader] = [].
Proof.
  assert (Hok : Forall descriptor_ok sample_devices).
  { repeat constructor; unfold uint16; simpl; lia. }
  destruct (C7_device_enumeration sample_devices Hok)
    as (Hf & _ & _ & Hfirst & _).
  split; [exact Hok|]. split; [rewrite Hf; reflexivity|].
  split; [apply (Hfirst sample_tessel []); rewrite Hf; reflexivity|].
  reflexivity.
Defined.

(** ** Bytes *)

Lemma byte_to_Z_range (b : byte) : 0 <= byte_to_Z b < 256.
Proof.
  unfold byte_to_Z. pose proof (Byte.to_N_bounded b). lia.
Qed.

Lemma byte_to_Z_inj (a b : byte) : byte_to_Z a = byte_to_Z b -> a = b.
Proof.
  unfold byte_to_Z. intros H. apply N2Z.inj in H.
  pose proof (Byte.of_to_N a) as Ha. rewrite H, Byte.of_to_N in Ha.
  congruence.
Qed.

Lemma byte_to_of_Z (z : Z) : byte_to_Z (byte_of_Z z) = z mod 256.
Proof.
  unfold byte_to_Z, byte_of_Z.
  pose proof (Z.mod_pos_bound z 256 ltac:(lia)) as Hm.
  destruct (Byte.of_N (Z.to_N (z mod 256))) as [b|] eqn:E.
  - apply Byte.to_of_N in E. rewrite E. lia.
  - apply Byte.of_N_None_iff in E. lia.
Qed.

Lemma strict_eq_STX (b : byte) :
  strict_eq (Some (byte_to_Z b)) 1 = Byte.eqb b x01.
Proof.
  simpl. destruct (Byte.eqb b x01) eqn:E.
  - apply Byte.byte_dec_bl in E. subst b. reflexivity.
  - apply Z.eqb_neq. intros H. change 1 with (byte_to_Z x01) in H.
    apply byte_to_Z_inj in H. subst b. discriminate.
Qed.

Lemma strict_eq_not_STX (b : byte) :
  b <> x01 -> strict_eq (Some (byte_to_Z b)) 1 = false.
Proof.
  intros Hb. rewrite strict_eq_STX.
  destruct (Byte.eqb b x01) eqn:E; [|reflexivity].
  apply Byte.byte_dec_bl in E. contradiction.
Qed.

Lemma Buffer_get_app (pre : Buffer) (b : byte) (post : Buffer) :
  Buffer_get (pre ++ b :: post) (List.length pre) = Some (byte_to_Z b).
Proof.
  unfold Buffer_get. rewrite nth_error_app2 by lia.
  rewrite Nat.sub_diag. reflexivity.
Qed.

Lemma Buffer_get_end (data : Buffer) :
  Buffer_get data (List.length data) = None.
Proof.
  unfold Buffer_get.
  replace (nth_error data (List.length data)) with (@None byte); [reflexivity|].
  symmetry. apply nth_error_None. lia.
Qed.

(** ** Log stream *)

Section LogProperties.
Variable utf8_decode : Buffer -> string.

Lemma scan_STX_text (text pre rest : Buffer) :
  ~ In STX text ->
  rest = [] \/ (exists r, rest = STX :: r) ->
  scan_STX (pre ++ text ++ rest) (List.length text + List.length rest)
           (List.length pre)
  = (List.length pre + List.length text)%nat.
Proof.
  revert pre. induction text as [|a text IH]; intros pre Hno Hrest.
  - simpl. destruct Hrest as [-> | [r ->]].
    + simpl. lia.
    + simpl. rewrite Buffer_get_app.
      change (byte_to_Z STX =? 1) with true. simpl. lia.
  - simpl List.length. simpl plus. cbn [scan_STX].
    change ((a :: text) ++ rest) with (a :: (text ++ rest)).
    rewrite Buffer_get_app.
    rewrite strict_eq_not_STX by (intros ->; apply Hno; left; reflexivity).
    replace (pre ++ a :: text ++ rest) with ((pre ++ [a]) ++ text ++ rest)
      by (rewrite <- app_assoc; reflexivity).
    replace (S (List.length pre)) with (List.length (pre ++ [a]))
      by (rewrite length_app; simpl; lia).
    rewrite IH; [rewrite length_app; simpl; lia | | exact Hrest].
    intros Hin. apply Hno. right. exact Hin.
Qed.

Lemma log_chunk_head (records : list (byte * Buffer)) :
  log_chunk records = [] \/ exists r, log_chunk records = STX :: r.
Proof.
  destruct records as [|[lvl text] rs]; [left; reflexivity|].
  right. simpl. eexists. reflexivity.
Qed.

Lemma toString_utf8_text (pre text rest : Buffer) :
  toString_utf8 utf8_decode (pre ++ text ++ rest) (List.length pre)
                (List.length pre + List.length text)
  = decode_text utf8_decode text.
Proof.
  unfold toString_utf8, Buffer_slice.
  rewrite Nat.min_l by (rewrite !length_app; lia).
  destruct text as [|a text].
  - simpl. rewrite Nat.add_0_r.
    replace (_ <=? _)%nat with true by (symmetry; apply Nat.leb_le; lia).
    reflexivity.
  - replace (_ <=? _)%nat with false
      by (symmetry; apply Nat.leb_gt; simpl; lia).
    rewrite skipn_app, skipn_all, Nat.sub_diag.
    replace (List.length pre + List.length (a :: text) - List.length pre)%nat
      with (List.length (a :: text)) by lia.
    cbn [skipn]. rewrite app_nil_l.
    rewrite firstn_app, firstn_all, Nat.sub_diag.
    cbn [firstn]. rewrite app_nil_r. reflexivity.
Qed.

Lemma log_while_records (records : list (byte * Buffer)) :
  Forall text_ok records ->
  forall (pre : Buffer) (events : list Event) (fuel : nat),
    (List.length (log_chunk records) <= fuel)%nat ->
    log_while utf8_decode fuel (pre ++ log_chunk records) (List.length pre) events
    = Some (events ++ map (debug_of utf8_decode) records, Normal tt).
Proof.
  induction 1 as [|[lvl text] rs Hok Hrs IH]; intros pre events fuel Hfuel.
  - simpl. rewrite !app_nil_r.
    destruct fuel; simpl; rewrite Nat.ltb_irrefl; reflexivity.
  - unfold text_ok in Hok. simpl in Hok.
    change (log_chunk ((lvl, text) :: rs))
      with (STX :: lvl :: text ++ log_chunk rs) in *.
    simpl in Hfuel. rewrite length_app in Hfuel.
    destruct fuel as [|fuel]; [lia|].
    cbn [log_while].
    replace (_ <? _)%nat with true
      by (symmetry; apply Nat.ltb_lt; rewrite length_app; simpl; lia).
    rewrite Buffer_get_app. change (strict_eq (Some (byte_to_Z STX)) 1) with true.
    cbn [negb].
    replace (pre ++ STX :: lvl :: text ++ log_chunk rs)
      with ((pre ++ [STX; lvl]) ++ text ++ log_chunk rs)
      by (rewrite <- app_assoc; reflexivity).
    assert (Hlen : (List.length pre + 2 = List.length (pre ++ [STX; lvl]))%nat)
      by (rewrite length_app; simpl; lia).
    replace (List.length ((pre ++ [STX; lvl]) ++ text ++ log_chunk rs)
             - (List.length pre + 2))%nat
      with (List.length text + List.length (log_chunk rs))%nat
      by (rewrite !length_app; simpl; lia).
    rewrite Hlen.
    rewrite (scan_STX_text text _ _ Hok (log_chunk_head rs)).
    rewrite toString_utf8_text.
    replace (Buffer_get _ (List.length pre + 1))
      with (Some (byte_to_Z lvl)).
    2:{ rewrite <- app_assoc.
        replace (pre ++ [STX; lvl] ++ text ++ log_chunk rs)
          with ((pre ++ [STX]) ++ lvl :: text ++ log_chunk rs)
          by (rewrite <- app_assoc; reflexivity).
        replace (List.length pre + 1)%nat with (List.length (pre ++ [STX]))
          by (rewrite length_app; simpl; lia).
        rewrite Buffer_get_app. reflexivity. }
    rewrite app_assoc.
    rewrite <- (length_app (pre ++ [STX; lvl]) text).
    rewrite IH by lia.
    rewrite <- app_assoc. reflexivity.
Qed.

Lemma log_while_enough (fuel : nat) (data : Buffer) (pos : nat)
      (events : list Event) :
  (List.length data <= fuel + pos)%nat ->
  exists r, log_while utf8_decode fuel data pos events = Some r.
Proof.
  revert pos events. induction fuel as [|fuel IH]; intros pos events Hf.
  - simpl. replace (_ <? _)%nat with false
      by (symmetry; apply Nat.ltb_ge; lia).
    eexists; reflexivity.
  - cbn [log_while]. destruct (_ <? _)%nat; [|eexists; reflexivity].
    destruct (negb _); [eexists; reflexivity|].
    apply IH.
    assert (forall n i, (i <= scan_STX data n i)%nat) as Hscan.
    { induction n as [|n IHn]; intros i; simpl; [lia|].
      destruct (strict_eq _ _); [lia|]. specialize (IHn (S i)). lia. }
    specialize (Hscan (List.length data - (pos + 2))%nat (pos + 2)%nat). lia.
Qed.

End LogProperties.

(** The handler always comes to an end: the fuel given by [log_data] is
    never used up. *)
Lemma log_data_total (utf8_decode : Buffer -> string) (data : Buffer) :
  exists r, log_data utf8_decode data = Some r.
Proof.
  unfold log_data. apply log_while_enough. lia.
Qed.

(** C4: a chunk made of whole records [STX level text], no text containing
    the marker, is decoded into one [debug(text, level)] event per record, in
    the order of the records, each text being the UTF-8 decoding of exactly
    the bytes between the severity byte and the next marker (or the end of
    the chunk); the handler then returns normally. *)
Theorem C4_log_records_decoded
        (utf8_decode : Buffer -> string) (records : list (byte * Buffer)) :
  Forall text_ok records ->
  log_data utf8_decode (log_chunk records)
  = Some (map (debug_of utf8_decode) records, Normal tt).
Proof.
  intros Hok. unfold log_data.
  exact (log_while_records utf8_decode records Hok [] [] _ (Nat.le_refl _)).
Qed.

Lemma C4_log_records_decoded_witness :
  Forall text_ok sample_records
  /\ log_data ascii_decode (log_chunk sample_records)
     = Some ([Debug "boot" (Some 2); Debug "" (Some 1);
              Debug "ready 1/2" (Some 22)], Normal tt).
Proof.
  assert (Hok : Forall text_ok sample_records).
  { repeat constructor; unfold text_ok, STX; simpl; intuition discriminate. }
  split; [exact Hok|].
  rewrite (C4_log_records_decoded ascii_decode sample_records Hok).
  reflexivity.
Defined.

(** C5: a non-empty chunk whose first byte is not the marker makes the
    handler throw the framing error (it names position 0 and the byte found
    there) before any [debug] event is emitted. *)
Theorem C5_log_chunk_without_marker
        (utf8_decode : Buffer -> string) (first : byte) (rest : Buffer) :
  first <> STX ->
  log_data utf8_decode (first :: rest)
  = Some ([], Throw (MalformedLogStream 0 (Some (byte_to_Z first)))).
Proof.
  intros Hfirst. unfold log_data. cbn [List.length log_while].
  change (0 <? S (List.length rest))%nat with true. cbv iota.
  change (Buffer_get (first :: rest) 0) with (Some (byte_to_Z first)).
  rewrite (strict_eq_not_STX first Hfirst). reflexivity.
Qed.

Lemma C5_log_chunk_without_marker_witness :
  x41 <> STX
  /\ log_data ascii_decode (x41 :: STX :: x02 :: list_byte_of_string "late")
     = Some ([], Throw (new_Error "Expected STX at 0, got 65instead")).
Proof.
  assert (H : x41 <> STX) by discriminate.
  split; [exact H|].
  rewrite (C5_log_chunk_without_marker ascii_decode x41 _ H).
  reflexivity.
Defined.

(** ** Little-endian numbers *)

Lemma byte_of_Z_mod (z : Z) : byte_of_Z (z mod 256) = byte_of_Z z.
Proof.
  apply byte_to_Z_inj. rewrite !byte_to_of_Z. apply Z.mod_mod. lia.
Qed.

Lemma byte_of_Z_land (z : Z) : byte_of_Z (Z.land z 255) = byte_of_Z z.
Proof.
  change 255 with (Z.ones 8). rewrite Z.land_ones by lia.
  change (2 ^ 8) with 256. apply byte_of_Z_mod.
Qed.

Lemma le_decode_encode (v : Z) :
  0 <= v < 2 ^ 32 -> le_decode (le32_encode v) = v.
Proof.
  intros Hv. unfold le_decode, le32_encode. cbn [fold_right].
  rewrite !byte_to_of_Z.
  change (2 ^ 8) with 256. change (2 ^ 16) with 65536.
  change (2 ^ 24) with 16777216. change (2 ^ 32) with 4294967296 in Hv.
  Z.div_mod_to_equations. lia.
Qed.

Lemma readUInt32LE_decode (b : Buffer) (offset : nat) :
  Z.of_nat offset + 4 <= Buffer_length b ->
  readUInt32LE b offset
  = Normal (le_decode (Buffer_slice b offset (offset + 4))).
Proof.
  intros Hlen. unfold readUInt32LE.
  destruct (_ >? _) eqn:E; [apply Z.gtb_lt in E; lia|]. clear E.
  f_equal. unfold Buffer_slice, byte_at, Buffer_length in *.
  replace (offset + 4 - offset)%nat with 4%nat by lia.
  rewrite <- (firstn_skipn offset b) at 1 2 3 4.
  assert (Hpre : List.length (firstn offset b) = offset)
    by (rewrite length_firstn; lia).
  assert (Hpost : (4 <= List.length (skipn offset b))%nat)
    by (rewrite length_skipn; lia).
  destruct (skipn offset b) as [|b0 [|b1 [|b2 [|b3 post]]]];
    simpl in Hpost; try lia.
  rewrite !app_nth2 by lia. rewrite Hpre.
  replace (offset - offset)%nat with 0%nat by lia.
  replace (offset + 1 - offset)%nat with 1%nat by lia.
  replace (offset + 2 - offset)%nat with 2%nat by lia.
  replace (offset + 3 - offset)%nat with 3%nat by lia.
  cbn [nth firstn le_decode fold_right].
  change (2 ^ 8) with 256. change (2 ^ 16) with 65536.
  change (2 ^ 24) with 16777216. lia.
Qed.

Lemma readUInt32LE_short (b : Buffer) (offset : nat) :
  Buffer_length b < Z.of_nat offset + 4 ->
  readUInt32LE b offset = Throw out_of_range.
Proof.
  intros Hlen. unfold readUInt32LE.
  destruct (_ >? _) eqn:E; [reflexivity|].
  rewrite Z.gtb_ltb in E. apply Z.ltb_ge in E. lia.
Qed.

(** ** MessagesIn: one call of the handler *)

Lemma is_short (data : Buffer) :
  short_chunk data -> (Buffer_length data <? TRANSFER_SIZE) = true.
Proof. unfold short_chunk. intros H. apply Z.ltb_lt. exact H. Qed.

Lemma not_short (data : Buffer) :
  TRANSFER_SIZE <= Buffer_length data ->
  (Buffer_length data <? TRANSFER_SIZE) = false.
Proof. intros H. apply Z.ltb_ge. exact H. Qed.

(** A chunk that is not short is put aside while the array stays within the
    limit. *)
Lemma messagesIn_data_more (buffers : list Buffer) (data : Buffer) :
  TRANSFER_SIZE <= Buffer_length data ->
  Z.of_nat (List.length buffers) < MAX_FULL_CHUNKS ->
  messagesIn_data buffers data = mkHandled (buffers ++ [data]) [] (Normal tt).
Proof.
  intros Hfull Hroom. unfold messagesIn_data.
  rewrite (not_short data Hfull).
  destruct (_ >? _) eqn:E; [|reflexivity].
  apply Z.gtb_lt in E. rewrite length_app in E. simpl in E.
  unfold TRANSFER_SIZE, MAX_FULL_CHUNKS in *. lia.
Qed.

(** ... and is refused once the array goes past the limit. *)
Lemma messagesIn_data_oversize (buffers : list Buffer) (data : Buffer) :
  TRANSFER_SIZE <= Buffer_length data ->
  MAX_FULL_CHUNKS <= Z.of_nat (List.length buffers) ->
  messagesIn_data buffers data
  = mkHandled (buffers ++ [data]) []
              (Throw (OversizeMessage (nth 0 (buffers ++ [data]) []))).
Proof.
  intros Hfull Hroom. unfold messagesIn_data.
  rewrite (not_short data Hfull).
  destruct (_ >? _) eqn:E; [reflexivity|].
  rewrite Z.gtb_ltb in E. apply Z.ltb_ge in E.
  rewrite length_app in E. simpl in E.
  unfold TRANSFER_SIZE, MAX_FULL_CHUNKS in *. lia.
Qed.

(** A short chunk that completes at least a header. *)
Lemma messagesIn_data_frame (buffers : list Buffer) (data : Buffer) :
  short_chunk data ->
  8 <= Buffer_length (Buffer_concat (buffers ++ [data])) ->
  messagesIn_data buffers data
  = mkHandled []
      [Message (le_decode (Buffer_slice (Buffer_concat (buffers ++ [data])) 4 8))
               (skipn 8 (Buffer_concat (buffers ++ [data])))]
      (Normal tt).
Proof.
  intros Hshort Hlen. unfold messagesIn_data.
  rewrite (is_short data Hshort).
  destruct (_ >? 0) eqn:E; [|rewrite Z.gtb_ltb in E; apply Z.ltb_ge in E; lia].
  rewrite (readUInt32LE_decode _ 0) by (simpl; lia).
  rewrite (readUInt32LE_decode _ 4) by (simpl; lia).
  reflexivity.
Qed.

(** A short chunk that leaves the array with no bytes at all. *)
Lemma messagesIn_data_nothing (buffers : list Buffer) (data : Buffer) :
  short_chunk data ->
  Buffer_length (Buffer_concat (buffers ++ [data])) = 0 ->
  messagesIn_data buffers data = mkHandled [] [] (Normal tt).
Proof.
  intros Hshort Hlen. unfold messagesIn_data.
  rewrite (is_short data Hshort), Hlen. reflexivity.
Qed.

(** A short chunk that leaves the array with less than a header. *)
Lemma messagesIn_data_truncated (buffers : list Buffer) (data : Buffer) :
  short_chunk data ->
  1 <= Buffer_length (Buffer_concat (buffers ++ [data])) <= 7 ->
  messagesIn_data buffers data
  = mkHandled (buffers ++ [data]) [] (Throw out_of_range).
Proof.
  intros Hshort Hlen. unfold messagesIn_data.
  rewrite (is_short data Hshort).
  destruct (_ >? 0) eqn:E; [|rewrite Z.gtb_ltb in E; apply Z.ltb_ge in E; lia].
  destruct (Z_lt_le_dec (Buffer_length (Buffer_concat (buffers ++ [data]))) 4)
    as [H4|H4].
  - rewrite (readUInt32LE_short _ 0) by (simpl; lia). reflexivity.
  - rewrite (readUInt32LE_decode _ 0) by (simpl; lia).
    rewrite (readUInt32LE_short _ 4) by (simpl; lia). reflexivity.
Qed.

(** C9: when the short chunk leaves between 1 and 7 bytes in the array, the
    handler throws the out-of-range error of [readUInt32LE]; it emits no
    event and does not empty the array. *)
Theorem C9_truncated_header_throws (buffers : list Buffer) (data : Buffer) :
  short_chunk data ->
  1 <= Buffer_length (Buffer_concat (buffers ++ [data])) <= 7 ->
  completed (messagesIn_data buffers data) = Throw out_of_range
  /\ emitted (messagesIn_data buffers data) = []
  /\ kept (messagesIn_data buffers data) = buffers ++ [data].
Proof.
  intros Hshort Hlen.
  rewrite (messagesIn_data_truncated buffers data Hshort Hlen).
  repeat split.
Qed.

Lemma C9_truncated_header_throws_witness :
  (short_chunk sample_truncated
   /\ 1 <= Buffer_length (Buffer_concat ([] ++ [sample_truncated])) <= 7)
  /\ completed (messagesIn_data [] sample_truncated) = Throw out_of_range
  /\ emitted (messagesIn_data [] sample_truncated) = []
  /\ kept (messagesIn_data [] sample_truncated) = [] ++ [sample_truncated].
Proof.
  assert (Hs : short_chunk sample_truncated) by reflexivity.
  assert (Hl : 1 <= Buffer_length (Buffer_concat ([] ++ [sample_truncated])) <= 7)
    by (unfold Buffer_length, Buffer_concat; simpl; lia).
  split; [split; assumption|].
  exact (C9_truncated_header_throws [] sample_truncated Hs Hl).
Defined.

(** C10: once the short chunk has arrived and the array holds at least the
    8 bytes of a header, the handler emits one [message] whose tag is the
    number in bytes 4-7 and whose payload is everything after byte 7,
    whatever bytes 0-3 declare: two arrays that agree from byte 4 on lead to
    the same result. *)
Theorem C10_declared_length_ignored (buffers : list Buffer) (data : Buffer) :
  short_chunk data ->
  8 <= Buffer_length (Buffer_concat (buffers ++ [data])) ->
  messagesIn_data buffers data
  = mkHandled []
      [Message (le_decode (Buffer_slice (Buffer_concat (buffers ++ [data])) 4 8))
               (skipn 8 (Buffer_concat (buffers ++ [data])))]
      (Normal tt)
  /\ forall (buffers' : list Buffer) (data' : Buffer),
      short_chunk data' ->
      skipn 4 (Buffer_concat (buffers' ++ [data']))
      = skipn 4 (Buffer_concat (buffers ++ [data])) ->
      messagesIn_data buffers' data' = messagesIn_data buffers data.
Proof.
  intros Hshort Hlen. split; [apply messagesIn_data_frame; assumption|].
  intros buffers' data' Hshort' Hsame.
  assert (Hlen' : 8 <= Buffer_length (Buffer_concat (buffers' ++ [data']))).
  { unfold Buffer_length in *.
    pose proof (length_skipn 4 (Buffer_concat (buffers' ++ [data']))) as H1.
    pose proof (length_skipn 4 (Buffer_concat (buffers ++ [data]))) as H2.
    rewrite Hsame in H1. lia. }
  rewrite !messagesIn_data_frame by assumption.
  unfold Buffer_slice.
  replace (skipn 8 (Buffer_concat (buffers' ++ [data'])))
    with (skipn 4 (skipn 4 (Buffer_concat (buffers' ++ [data']))))
    by (rewrite skipn_skipn; reflexivity).
  replace (skipn 8 (Buffer_concat (buffers ++ [data])))
    with (skipn 4 (skipn 4 (Buffer_concat (buffers ++ [data]))))
    by (rewrite skipn_skipn; reflexivity).
  rewrite Hsame. reflexivity.
Qed.

Lemma C10_declared_length_ignored_witness :
  (short_chunk sample_mismatch
   /\ 8 <= Buffer_length (Buffer_concat ([] ++ [sample_mismatch])))
  /\ messagesIn_data [] sample_mismatch
     = mkHandled [] [Message 0x55 [x68; x69]] (Normal tt)
  /\ le_decode (Buffer_slice sample_mismatch 0 4) = 5.
Proof.
  assert (Hs : short_chunk sample_mismatch) by reflexivity.
  assert (Hl : 8 <= Buffer_length (Buffer_concat ([] ++ [sample_mismatch])))
    by (unfold Buffer_length, Buffer_concat; simpl; lia).
  split; [split; assumption|].
  split; [|reflexivity].
  rewrite (proj1 (C10_declared_length_ignored [] sample_mismatch Hs Hl)).
  reflexivity.
Defined.

(** ** MessagesIn: a run of chunks *)

Lemma messagesIn_feed_more (chunks : list Buffer) :
  forall buffers : list Buffer,
    Forall (fun c => TRANSFER_SIZE <= Buffer_length c) chunks ->
    Z.of_nat (List.length buffers + List.length chunks) <= MAX_FULL_CHUNKS ->
    messagesIn_feed buffers chunks = mkHandled (buffers ++ chunks) [] (Normal tt).
Proof.
  induction chunks as [|c chunks IH]; intros buffers Hfull Hroom.
  - simpl. rewrite app_nil_r. reflexivity.
  - inversion Hfull as [|? ? Hc Hrest]; subst.
    cbn [messagesIn_feed]. simpl List.length in Hroom.
    rewrite messagesIn_data_more by (assumption || lia).
    cbn [completed kept emitted].
    rewrite IH; [| assumption | rewrite length_app; simpl; lia].
    cbn [kept emitted completed app]. rewrite <- app_assoc. reflexivity.
Qed.

Lemma messagesIn_feed_app (xs ys : list Buffer) :
  forall buffers : list Buffer,
    completed (messagesIn_feed buffers xs) = Normal tt ->
    messagesIn_feed buffers (xs ++ ys)
    = mkHandled
        (kept (messagesIn_feed (kept (messagesIn_feed buffers xs)) ys))
        (emitted (messagesIn_feed buffers xs)
         ++ emitted (messagesIn_feed (kept (messagesIn_feed buffers xs)) ys))
        (completed (messagesIn_feed (kept (messagesIn_feed buffers xs)) ys)).
Proof.
  induction xs as [|x xs IH]; intros buffers Hok.
  - simpl. destruct (messagesIn_feed buffers ys); reflexivity.
  - cbn [messagesIn_feed app] in *.
    destruct (completed (messagesIn_data buffers x)) as [[]|e] eqn:Ex.
    + cbn [completed kept emitted] in *. rewrite IH by exact Hok.
      cbn [kept emitted completed]. rewrite app_assoc. reflexivity.
    + rewrite Ex in Hok. discriminate.
Qed.

(** The run [pre], all of it put aside, followed by one chunk too many. *)
Lemma messagesIn_feed_oversize (pre : list Buffer) (c : Buffer)
      (rest : list Buffer) :
  Forall (fun c => TRANSFER_SIZE <= Buffer_length c) pre ->
  Z.of_nat (List.length pre) = MAX_FULL_CHUNKS ->
  TRANSFER_SIZE <= Buffer_length c ->
  messagesIn_feed [] (pre ++ c :: rest)
  = mkHandled (pre ++ [c]) [] (Throw (OversizeMessage (nth 0 (pre ++ [c]) []))).
Proof.
  intros Hpre Hlen Hc.
  pose proof (messagesIn_feed_more pre [] Hpre ltac:(simpl; lia)) as Hrun.
  rewrite messagesIn_feed_app by (rewrite Hrun; reflexivity).
  rewrite Hrun. cbn [kept emitted completed app messagesIn_feed].
  rewrite messagesIn_data_oversize by (assumption || lia).
  reflexivity.
Qed.

Lemma full_chunks_length (chunks : list Buffer) :
  Forall full_chunk chunks ->
  Buffer_length (Buffer_concat chunks)
  = TRANSFER_SIZE * Z.of_nat (List.length chunks).
Proof.
  unfold Buffer_length, Buffer_concat.
  induction 1 as [|c chunks Hc _ IH]; [reflexivity|].
  cbn [concat List.length]. rewrite length_app.
  unfold full_chunk, Buffer_length in Hc. lia.
Qed.

Lemma full_chunks_not_short (chunks : list Buffer) :
  Forall full_chunk chunks ->
  Forall (fun c => TRANSFER_SIZE <= Buffer_length c) chunks.
Proof.
  apply Forall_impl. unfold full_chunk. intros c Hc. lia.
Qed.

Lemma toString_hex_header (first : Buffer) :
  toString_hex first 0 8
  = String.concat "" (map hex_of_byte (firstn 8 first)).
Proof. reflexivity. Qed.

(** C3: a stream of full-size chunks only.  While the accumulated size is
    within 32 MiB every chunk is put aside and nothing is emitted; as soon as
    it exceeds 32 MiB (at chunk 8193) the handler throws the oversize error,
    whose text ends with the first 8 bytes of the first chunk in hexadecimal,
    and no [message] event has been emitted. *)
Theorem C3_oversize_message (chunks : list Buffer) :
  Forall full_chunk chunks ->
  (Buffer_length (Buffer_concat chunks) <= 32 * 1024 * 1024 ->
   messagesIn_stream chunks = mkHandled chunks [] (Normal tt))
  /\ (32 * 1024 * 1024 < Buffer_length (Buffer_concat chunks) ->
      messagesIn_stream chunks
      = mkHandled (firstn (Z.to_nat 8193) chunks) []
          (Throw (new_Error
                    (String.append "Malformed message (oversize): "
                       (String.concat ""
                          (map hex_of_byte (firstn 8 (nth 0 chunks []))))))))
  /\ emitted (messagesIn_stream chunks) = [].
Proof.
  intros Hfull. pose proof (full_chunks_length chunks Hfull) as Hsize.
  pose proof (full_chunks_not_short chunks Hfull) as Hmore.
  unfold TRANSFER_SIZE in Hsize.
  assert (Hsmall : Buffer_length (Buffer_concat chunks) <= 32 * 1024 * 1024 ->
                   messagesIn_stream chunks = mkHandled chunks [] (Normal tt)).
  { intros Hle. unfold messagesIn_stream.
    apply (messagesIn_feed_more chunks []); [exact Hmore|].
    unfold MAX_FULL_CHUNKS. simpl List.length. lia. }
  assert (Hbig : 32 * 1024 * 1024 < Buffer_length (Buffer_concat chunks) ->
                 messagesIn_stream chunks
                 = mkHandled (firstn (Z.to_nat 8193) chunks) []
                     (Throw (OversizeMessage (nth 0 chunks [])))).
  { intros Hgt. unfold messagesIn_stream.
    assert (Hn : (Z.to_nat 8193 <= List.length chunks)%nat) by lia.
    rewrite <- (firstn_skipn (Z.to_nat 8192) chunks) at 1.
    destruct (skipn (Z.to_nat 8192) chunks) as [|c rest] eqn:Hskip.
    { apply (f_equal (@List.length Buffer)) in Hskip.
      rewrite length_skipn in Hskip. simpl in Hskip. lia. }
    assert (Hc : In c chunks).
    { rewrite <- (firstn_skipn (Z.to_nat 8192) chunks), Hskip.
      apply in_or_app. right. left. reflexivity. }
    rewrite messagesIn_feed_oversize.
    - assert (H1 : firstn (Z.to_nat 8192) chunks ++ [c]
                   = firstn (Z.to_nat 8193) chunks).
      { rewrite <- (firstn_skipn (Z.to_nat 8192) chunks) at 2.
        rewrite firstn_app, length_firstn.
        rewrite Nat.min_l by lia.
        replace (Z.to_nat 8193 - Z.to_nat 8192)%nat with 1%nat by lia.
        rewrite Hskip. cbn [firstn].
        rewrite firstn_firstn, Nat.min_r by lia. reflexivity. }
      rewrite H1. do 3 f_equal.
      destruct chunks as [|c0 chunks0]; [simpl in Hn; lia|].
      replace (Z.to_nat 8193) with (S (Z.to_nat 8192)) by lia.
      reflexivity.
    - apply Forall_forall. intros x Hx. rewrite Forall_forall in Hmore.
      apply Hmore. rewrite <- (firstn_skipn (Z.to_nat 8192) chunks).
      apply in_or_app. left. exact Hx.
    - rewrite length_firstn. unfold MAX_FULL_CHUNKS. lia.
    - rewrite Forall_forall in Hmore. apply Hmore. exact Hc. }
  split; [exact Hsmall|]. split; [exact Hbig|].
  destruct (Z_le_gt_dec (Buffer_length (Buffer_concat chunks)) (32 * 1024 * 1024))
    as [Hle|Hgt].
  - rewrite Hsmall by exact Hle. reflexivity.
  - rewrite Hbig by lia. reflexivity.
Qed.

Lemma sample_full_is_full : full_chunk sample_full.
Proof.
  unfold full_chunk, Buffer_length, sample_full, TRANSFER_SIZE.
  rewrite length_app, repeat_length. cbn [list_byte_of_string List.length].
  change (List.length (list_byte_of_string "Tessel!!")) with 8%nat. lia.
Qed.

Lemma sample_flood_is_full : Forall full_chunk sample_flood.
Proof.
  unfold sample_flood. constructor; [exact sample_full_is_full|].
  apply Forall_forall. intros c Hc. apply repeat_spec in Hc. subst c.
  exact sample_full_is_full.
Qed.

Lemma sample_flood_size :
  32 * 1024 * 1024 < Buffer_length (Buffer_concat sample_flood).
Proof.
  rewrite (full_chunks_length _ sample_flood_is_full).
  unfold sample_flood. cbn [List.length]. rewrite repeat_length.
  unfold TRANSFER_SIZE. lia.
Qed.

Lemma C3_oversize_message_witness :
  (Forall full_chunk sample_flood
   /\ 32 * 1024 * 1024 < Buffer_length (Buffer_concat sample_flood))
  /\ messagesIn_stream sample_flood
     = mkHandled (firstn (Z.to_nat 8193) sample_flood) []
         (Throw (new_Error "Malformed message (oversize): 54657373656c2121")).
Proof.
  split; [split; [exact sample_flood_is_full | exact sample_flood_size]|].
  destruct (C3_oversize_message sample_flood sample_flood_is_full)
    as (_ & Hbig & _).
  rewrite (Hbig sample_flood_size).
  replace (firstn 8 (nth 0 sample_flood []))
    with (list_byte_of_string "Tessel!!") by reflexivity.
  reflexivity.
Defined.

(** ** MessagesOut: the frame written by _postMessage *)

Lemma new_Buffer_8 (mem : Buffer) :
  exists h0 h1 h2 h3 h4 h5 h6 h7,
    new_Buffer 8 mem = [h0; h1; h2; h3; h4; h5; h6; h7].
Proof.
  assert (Hlen : List.length (new_Buffer 8 mem) = 8%nat).
  { unfold new_Buffer. rewrite length_firstn, length_app, repeat_length. lia. }
  destruct (new_Buffer 8 mem) as [|h0 [|h1 [|h2 [|h3 [|h4 [|h5 [|h6 [|h7 [|h8 t]]]]]]]]];
    try discriminate Hlen.
  repeat eexists.
Qed.

Lemma uint32_accepted (v : Z) :
  0 <= v < 2 ^ 32 -> (v <? 0) || (v >? 4294967295) = false.
Proof.
  change (2 ^ 32) with 4294967296. intros Hv.
  apply orb_false_iff. split; [apply Z.ltb_ge; lia|].
  rewrite Z.gtb_ltb. apply Z.ltb_ge. lia.
Qed.

Lemma writeUInt32LE_header_0 (h0 h1 h2 h3 h4 h5 h6 h7 : byte) (v : Z) :
  0 <= v < 2 ^ 32 ->
  writeUInt32LE [h0; h1; h2; h3; h4; h5; h6; h7] v 0
  = Normal (le32_encode v ++ [h4; h5; h6; h7]).
Proof.
  intros Hv. unfold writeUInt32LE. rewrite (uint32_accepted v Hv).
  change (Z.of_nat 0 + 4 >? Buffer_length [h0; h1; h2; h3; h4; h5; h6; h7])
    with false.
  cbn [Buffer_set Nat.add]. unfold le32_encode.
  rewrite !byte_of_Z_land, !Z.shiftr_div_pow2 by lia. reflexivity.
Qed.

Lemma writeUInt32LE_header_4 (h0 h1 h2 h3 h4 h5 h6 h7 : byte) (v : Z) :
  0 <= v < 2 ^ 32 ->
  writeUInt32LE [h0; h1; h2; h3; h4; h5; h6; h7] v 4
  = Normal ([h0; h1; h2; h3] ++ le32_encode v).
Proof.
  intros Hv. unfold writeUInt32LE. rewrite (uint32_accepted v Hv).
  change (Z.of_nat 4 + 4 >? Buffer_length [h0; h1; h2; h3; h4; h5; h6; h7])
    with false.
  cbn [Buffer_set Nat.add]. unfold le32_encode.
  rewrite !byte_of_Z_land, !Z.shiftr_div_pow2 by lia. reflexivity.
Qed.

(** What [_postMessage] writes is the frame, whatever the allocator left in
    the header; its promise is settled by the outcome of the transfer. *)
Lemma postMessage_frame (mem : Buffer) (tag : Z) (data : Buffer)
      (err : option JsError) :
  0 <= tag < 2 ^ 32 ->
  Buffer_length data < 2 ^ 32 ->
  _postMessage mem tag (Some data) err
  = Normal (mkPosted (frame_bytes tag data)
                     (match err with
                      | Some e => Rejected e
                      | None => Fulfilled tt
                      end)).
Proof.
  intros Htag Hlen. unfold _postMessage.
  destruct (new_Buffer_8 mem) as (h0 & h1 & h2 & h3 & h4 & h5 & h6 & h7 & ->).
  rewrite writeUInt32LE_header_0
    by (unfold Buffer_length in *; lia).
  cbn [bind le32_encode app].
  rewrite writeUInt32LE_header_4 by exact Htag.
  cbn [bind]. unfold frame_bytes, Buffer_concat. cbn [concat le32_encode app].
  rewrite app_nil_r. destruct err; reflexivity.
Qed.

(** Without data, [_postMessage] sends the frame of an empty payload. *)
Lemma postMessage_no_data (mem : Buffer) (tag : Z) (err : option JsError) :
  _postMessage mem tag None err = _postMessage mem tag (Some []) err.
Proof. reflexivity. Qed.

(** Reading a frame back: the tag is in bytes 4-7, the payload after them,
    the declared length in bytes 0-3. *)
Lemma frame_bytes_read (tag : Z) (payload : Buffer) :
  0 <= tag < 2 ^ 32 ->
  le_decode (Buffer_slice (frame_bytes tag payload) 4 8) = tag
  /\ skipn 8 (frame_bytes tag payload) = payload
  /\ Buffer_length (frame_bytes tag payload) = Buffer_length payload + 8.
Proof.
  intros Htag. split; [|split].
  - change (Buffer_slice (frame_bytes tag payload) 4 8) with (le32_encode tag).
    apply le_decode_encode. exact Htag.
  - reflexivity.
  - unfold frame_bytes, Buffer_length. rewrite !length_app. simpl. lia.
Qed.

Lemma frame_bytes_valid (tag : Z) (payload : Buffer) :
  Buffer_length payload < 2 ^ 32 -> valid_frame (frame_bytes tag payload).
Proof.
  intros Hlen. unfold valid_frame.
  replace (Buffer_length (frame_bytes tag payload))
    with (Buffer_length payload + 8)
    by (unfold frame_bytes, Buffer_length; rewrite !length_app; simpl; lia).
  split; [unfold Buffer_length; lia|].
  change (Buffer_slice (frame_bytes tag payload) 0 4)
    with (le32_encode (Buffer_length payload)).
  rewrite le_decode_encode; [lia | unfold Buffer_length in *; lia].
Qed.

(** ** MessagesIn: a whole transfer *)

Lemma Buffer_concat_app (xs ys : list Buffer) :
  Buffer_concat (xs ++ ys) = Buffer_concat xs ++ Buffer_concat ys.
Proof. apply concat_app. Qed.

Lemma transfer_length (fulls : list Buffer) (last : Buffer) :
  Forall full_chunk fulls ->
  Buffer_length (Buffer_concat (fulls ++ [last]))
  = TRANSFER_SIZE * Z.of_nat (List.length fulls) + Buffer_length last.
Proof.
  intros Hfull. rewrite Buffer_concat_app.
  pose proof (full_chunks_length fulls Hfull) as Hlen.
  unfold Buffer_length in *. rewrite length_app.
  unfold Buffer_concat at 2. cbn [concat]. rewrite app_nil_r. lia.
Qed.

(** Full chunks within the limit and then a short one. *)
Lemma messagesIn_stream_last (fulls : list Buffer) (last : Buffer) :
  Forall full_chunk fulls ->
  Z.of_nat (List.length fulls) <= MAX_FULL_CHUNKS ->
  messagesIn_stream (fulls ++ [last]) = messagesIn_data fulls last.
Proof.
  intros Hfull Hroom. unfold messagesIn_stream.
  pose proof (messagesIn_feed_more fulls [] (full_chunks_not_short _ Hfull)
                                   ltac:(simpl; lia)) as Hrun.
  rewrite messagesIn_feed_app by (rewrite Hrun; reflexivity).
  rewrite Hrun. cbn [kept emitted completed app messagesIn_feed].
  destruct (messagesIn_data fulls last) as [k e [[]|err]];
    cbn [kept emitted completed]; rewrite ?app_nil_r; reflexivity.
Qed.

(** One chunk more than the limit, none of them short: the handler throws
    at the last of them, whatever follows. *)
Lemma messagesIn_stream_flood (fulls rest : list Buffer) :
  Forall (fun c => TRANSFER_SIZE <= Buffer_length c) fulls ->
  Z.of_nat (List.length fulls) = MAX_FULL_CHUNKS + 1 ->
  messagesIn_stream (fulls ++ rest)
  = mkHandled fulls [] (Throw (OversizeMessage (nth 0 fulls []))).
Proof.
  intros Hfull Hlen.
  assert (Hne : fulls <> []) by (intros ->; simpl in Hlen; discriminate Hlen).
  destruct (exists_last Hne) as (pre & c & ->).
  apply Forall_app in Hfull as [Hpre Hc]. inversion Hc as [|? ? Hc' _]; subst.
  rewrite length_app in Hlen. cbn [List.length] in Hlen.
  rewrite <- app_assoc. cbn [app]. unfold messagesIn_stream.
  apply messagesIn_feed_oversize; [exact Hpre | lia | exact Hc'].
Qed.

(** C2 (as the code has it): full chunks, at most 8192 of them, then a short
    chunk.  Nothing is emitted while the full chunks arrive.  If the whole is
    a valid frame, the short chunk makes the handler emit exactly one
    [message], its tag the number in bytes 4-7 and its payload the bytes from
    byte 8 on, and leave the array empty; if the whole is empty, nothing is
    emitted at all. *)
Theorem C2_reassembly (fulls : list Buffer) (last : Buffer) :
  Forall full_chunk fulls ->
  short_chunk last ->
  Z.of_nat (List.length fulls) <= MAX_FULL_CHUNKS ->
  (valid_frame (Buffer_concat (fulls ++ [last])) ->
   messagesIn_stream (fulls ++ [last])
   = mkHandled []
       [Message (le_decode (Buffer_slice (Buffer_concat (fulls ++ [last])) 4 8))
                (skipn 8 (Buffer_concat (fulls ++ [last])))]
       (Normal tt))
  /\ (forall n : nat,
         messagesIn_stream (firstn n fulls)
         = mkHandled (firstn n fulls) [] (Normal tt))
  /\ (Buffer_concat (fulls ++ [last]) = [] ->
      messagesIn_stream (fulls ++ [last]) = mkHandled [] [] (Normal tt)).
Proof.
  intros Hfull Hshort Hroom. split; [|split].
  - intros [Hlen _]. rewrite messagesIn_stream_last by assumption.
    apply messagesIn_data_frame; assumption.
  - intros n. unfold messagesIn_stream.
    apply (messagesIn_feed_more (firstn n fulls) []).
    + apply full_chunks_not_short. apply Forall_forall. intros c Hc.
      rewrite Forall_forall in Hfull. apply Hfull.
      rewrite <- (firstn_skipn n fulls). apply in_or_app. left. exact Hc.
    + rewrite length_firstn. simpl List.length. lia.
  - intros Hempty. rewrite messagesIn_stream_last by assumption.
    apply messagesIn_data_nothing; [assumption|]. rewrite Hempty. reflexivity.
Qed.

Lemma C2_reassembly_witness :
  (Forall full_chunk [sample_long_first]
   /\ short_chunk sample_long_last
   /\ Z.of_nat (List.length [sample_long_first]) <= MAX_FULL_CHUNKS
   /\ valid_frame (Buffer_concat ([sample_long_first] ++ [sample_long_last])))
  /\ messagesIn_stream ([sample_long_first] ++ [sample_long_last])
     = mkHandled [] [Message 0x55 sample_long_payload] (Normal tt).
Proof.
  assert (H1 : Forall full_chunk [sample_long_first])
    by (repeat constructor).
  assert (H2 : short_chunk sample_long_last) by reflexivity.
  assert (H3 : Z.of_nat (List.length [sample_long_first]) <= MAX_FULL_CHUNKS)
    by (unfold MAX_FULL_CHUNKS; simpl; lia).
  assert (H4 : valid_frame
                 (Buffer_concat ([sample_long_first] ++ [sample_long_last])))
    by (split; [vm_compute; discriminate | vm_compute; reflexivity]).
  split; [exact (conj H1 (conj H2 (conj H3 H4)))|].
  rewrite (proj1 (C2_reassembly [sample_long_first] sample_long_last H1 H2 H3) H4).
  vm_compute. reflexivity.
Defined.

(** *** A frame of 8193 full chunks *)

Lemma zero_chunk_is_full : full_chunk zero_chunk.
Proof.
  unfold full_chunk, Buffer_length, zero_chunk, TRANSFER_SIZE.
  rewrite repeat_length. lia.
Qed.

Lemma big_first_is_full : full_chunk big_first.
Proof.
  unfold full_chunk, Buffer_length, big_first, TRANSFER_SIZE.
  rewrite length_app, repeat_length. cbn [List.length]. lia.
Qed.

Lemma big_fulls_are_full : Forall full_chunk big_fulls.
Proof.
  unfold big_fulls. constructor; [exact big_first_is_full|].
  apply Forall_forall. intros c Hc. apply repeat_spec in Hc. subst c.
  exact zero_chunk_is_full.
Qed.

Lemma big_fulls_count : Z.of_nat (List.length big_fulls) = MAX_FULL_CHUNKS + 1.
Proof.
  unfold big_fulls, MAX_FULL_CHUNKS. cbn [List.length].
  rewrite repeat_length. lia.
Qed.

Lemma big_chunks_refused :
  messagesIn_stream big_chunks
  = mkHandled big_fulls []
      (Throw (new_Error "Malformed message (oversize): f80f000255000000")).
Proof.
  unfold big_chunks.
  rewrite (messagesIn_stream_flood big_fulls [[]]
             (full_chunks_not_short _ big_fulls_are_full) big_fulls_count).
  replace (OversizeMessage (nth 0 big_fulls []))
    with (new_Error "Malformed message (oversize): f80f000255000000")
    by reflexivity.
  reflexivity.
Qed.

Lemma big_chunks_length :
  Buffer_length (Buffer_concat big_chunks) = 33558528.
Proof.
  unfold big_chunks. rewrite (transfer_length _ _ big_fulls_are_full).
  rewrite big_fulls_count. reflexivity.
Qed.

Lemma big_chunks_valid : valid_frame (Buffer_concat big_chunks).
Proof.
  unfold valid_frame. rewrite big_chunks_length. split; [lia|].
  replace (Buffer_slice (Buffer_concat big_chunks) 0 4)
    with [xf8; x0f; x00; x02] by reflexivity.
  reflexivity.
Qed.

(** C2 does not hold without the bound on the number of full chunks: this
    valid frame arrives as 8193 full chunks and an empty one, and the handler
    throws at chunk 8193 instead of emitting a [message]. *)
Lemma C2_reassembly_counterexample :
  Forall full_chunk big_fulls
  /\ short_chunk []
  /\ valid_frame (Buffer_concat (big_fulls ++ [[]]))
  /\ messagesIn_stream (big_fulls ++ [[]])
     = mkHandled big_fulls []
         (Throw (new_Error "Malformed message (oversize): f80f000255000000")).
Proof.
  split; [exact big_fulls_are_full|]. split; [reflexivity|].
  split; [exact big_chunks_valid | exact big_chunks_refused].
Qed.

(** ** Round trip *)

Lemma send_posts (TAG_KILL TAG_FLASH TAG_RUN : Z) (mem : Buffer) (tag : Z)
      (data : option Buffer) (err : option JsError) (reply : option Buffer) :
  tag = TAG_RUN \/ tag = TAG_FLASH ->
  send TAG_KILL TAG_FLASH TAG_RUN mem tag data err reply
  = (p <- _postMessage mem tag data err ;; Normal (ByPost p)).
Proof.
  intros Htag. unfold send, TAG_METHOD_MAP.
  destruct (tag =? TAG_RUN) eqn:Erun; [reflexivity|].
  destruct Htag as [->| ->]; [rewrite Z.eqb_refl in Erun; discriminate|].
  rewrite Z.eqb_refl. reflexivity.
Qed.

Lemma split_transfer_chunked (fuel : nat) :
  forall transfer : Buffer,
    (List.length transfer <= fuel)%nat ->
    chunked (split_transfer fuel transfer) transfer.
Proof.
  induction fuel as [|fuel IH]; intros transfer Hfuel.
  - destruct transfer; [|simpl in Hfuel; lia].
    exists [], []. repeat split; constructor.
  - cbn [split_transfer].
    destruct (Buffer_length transfer <? TRANSFER_SIZE) eqn:E.
    + apply Z.ltb_lt in E. exists [], transfer.
      split; [reflexivity|]. split; [constructor|]. split; [exact E|].
      unfold Buffer_concat. cbn [app concat]. apply app_nil_r.
    + apply Z.ltb_ge in E. unfold Buffer_length, TRANSFER_SIZE in E.
      destruct (IH (skipn (Z.to_nat TRANSFER_SIZE) transfer))
        as (fulls & last & Hsplit & Hfull & Hshort & Hcat).
      { rewrite length_skipn. unfold TRANSFER_SIZE. lia. }
      exists (firstn (Z.to_nat TRANSFER_SIZE) transfer :: fulls), last.
      split; [rewrite Hsplit; reflexivity|].
      split; [constructor; [|exact Hfull]|].
      { unfold full_chunk, Buffer_length. rewrite length_firstn.
        unfold TRANSFER_SIZE. lia. }
      split; [exact Hshort|].
      unfold Buffer_concat in *. cbn [concat]. rewrite Hcat.
      apply firstn_skipn.
Qed.

Lemma usb_chunks_chunked (transfer : Buffer) :
  chunked (usb_chunks transfer) transfer.
Proof. apply split_transfer_chunked. lia. Qed.

(** C1 (as the code has it): for a 32-bit tag and a payload whose frame
    is shorter than 8193 full chunks, [_postMessage] (and so [send] for a tag
    mapped to post-message) writes the length of the payload and the tag as
    little-endian 32-bit numbers followed by the payload, and these bytes,
    delivered to the MessagesIn handler as full chunks followed by a short
    one, come back as exactly one [message] with that tag and that
    payload. *)
Theorem C1_frame_round_trip (mem : Buffer) (tag : Z) (payload : Buffer)
        (err : option JsError) :
  0 <= tag < 2 ^ 32 ->
  Buffer_length payload + 8 < (MAX_FULL_CHUNKS + 1) * TRANSFER_SIZE ->
  exists p,
    _postMessage mem tag (Some payload) err = Normal p
    /\ outbound p = le32_encode (Buffer_length payload)
                    ++ le32_encode tag ++ payload
    /\ (forall TAG_KILL TAG_FLASH reply,
           send TAG_KILL TAG_FLASH tag mem tag (Some payload) err reply
           = Normal (ByPost p))
    /\ (forall chunks,
           chunked chunks (outbound p) ->
           messagesIn_stream chunks
           = mkHandled [] [Message tag payload] (Normal tt))
    /\ messagesIn_stream (usb_chunks (outbound p))
       = mkHandled [] [Message tag payload] (Normal tt).
Proof.
  intros Htag Hsize.
  assert (Hlen : Buffer_length payload < 2 ^ 32)
    by (unfold MAX_FULL_CHUNKS, TRANSFER_SIZE in Hsize; lia).
  assert (Hback : forall chunks,
             chunked chunks (frame_bytes tag payload) ->
             messagesIn_stream chunks
             = mkHandled [] [Message tag payload] (Normal tt)).
  { intros chunks (fulls & last & -> & Hfull & Hshort & Hcat).
    destruct (frame_bytes_read tag payload Htag) as (Hrtag & Hrpay & Hrlen).
    pose proof (transfer_length fulls last Hfull) as Htotal.
    rewrite Hcat, Hrlen in Htotal.
    assert (Hroom : Z.of_nat (List.length fulls) <= MAX_FULL_CHUNKS).
    { unfold short_chunk, Buffer_length, MAX_FULL_CHUNKS, TRANSFER_SIZE in *.
      lia. }
    rewrite messagesIn_stream_last by assumption.
    rewrite messagesIn_data_frame;
      [| assumption | rewrite Hcat, Hrlen; unfold Buffer_length; lia].
    rewrite Hcat, Hrtag, Hrpay. reflexivity. }
  eexists. split; [apply postMessage_frame; assumption|].
  cbn [outbound]. split; [reflexivity|]. split; [|split].
  - intros TAG_KILL TAG_FLASH reply.
    rewrite send_posts by (left; reflexivity).
    rewrite postMessage_frame by assumption. reflexivity.
  - exact Hback.
  - apply Hback. apply usb_chunks_chunked.
Qed.

Lemma C1_frame_round_trip_witness :
  (0 <= 0x55 < 2 ^ 32
   /\ Buffer_length sample_long_payload + 8
      < (MAX_FULL_CHUNKS + 1) * TRANSFER_SIZE)
  /\ exists p,
      _postMessage [xde; xad] 0x55 (Some sample_long_payload) None = Normal p
      /\ outbound p = sample_long_first ++ sample_long_last
      /\ usb_chunks (outbound p) = [sample_long_first; sample_long_last]
      /\ messagesIn_stream [sample_long_first; sample_long_last]
         = mkHandled [] [Message 0x55 sample_long_payload] (Normal tt).
Proof.
  assert (H1 : 0 <= 0x55 < 2 ^ 32) by (split; [discriminate | reflexivity]).
  assert (H2 : Buffer_length sample_long_payload + 8
               < (MAX_FULL_CHUNKS + 1) * TRANSFER_SIZE) by reflexivity.
  split; [exact (conj H1 H2)|].
  destruct (C1_frame_round_trip [xde; xad] 0x55 sample_long_payload None H1 H2)
    as (p & Hpost & Hout & _ & _ & Hback).
  assert (Hbytes : outbound p = sample_long_first ++ sample_long_last)
    by (rewrite Hout; vm_compute; reflexivity).
  assert (Hchunks : usb_chunks (outbound p)
                    = [sample_long_first; sample_long_last])
    by (rewrite Hbytes; vm_compute; reflexivity).
  exists p. split; [exact Hpost|]. split; [exact Hbytes|].
  split; [exact Hchunks|]. rewrite <- Hchunks. exact Hback.
Defined.

Lemma concat_repeat (x : byte) (n m : nat) :
  concat (repeat (repeat x n) m) = repeat x (m * n).
Proof.
  induction m as [|m IH]; [reflexivity|].
  cbn [repeat concat Nat.mul]. rewrite IH, <- repeat_app. reflexivity.
Qed.

Lemma big_payload_length : Buffer_length big_payload = 33558520.
Proof.
  unfold Buffer_length, big_payload. rewrite repeat_length. lia.
Qed.

Lemma big_chunks_frame : Buffer_concat big_chunks = frame_bytes 0x55 big_payload.
Proof.
  unfold frame_bytes. rewrite big_payload_length.
  replace (le32_encode 33558520) with [xf8; x0f; x00; x02]
    by (vm_compute; reflexivity).
  replace (le32_encode 0x55) with [x55; x00; x00; x00]
    by (vm_compute; reflexivity).
  unfold big_chunks, big_fulls. rewrite Buffer_concat_app.
  unfold Buffer_concat. cbn [concat]. rewrite !app_nil_r.
  unfold zero_chunk. rewrite concat_repeat.
  unfold big_first, big_payload.
  replace (Z.to_nat 33558520)
    with (Z.to_nat 4088 + Z.to_nat 8192 * Z.to_nat 4096)%nat by lia.
  rewrite <- app_assoc, <- repeat_app. cbn [app]. reflexivity.
Qed.

(** C1 does not hold without the bound on the size of the payload: the
    frame of this payload is written as expected, but its 8193 full chunks
    make the MessagesIn handler throw instead of giving back the tag and the
    payload. *)
Lemma C1_frame_round_trip_counterexample :
  0 <= 0x55 < 2 ^ 32
  /\ _postMessage [] 0x55 (Some big_payload) None
     = Normal (mkPosted (frame_bytes 0x55 big_payload) (Fulfilled tt))
  /\ chunked big_chunks (frame_bytes 0x55 big_payload)
  /\ messagesIn_stream big_chunks
     = mkHandled big_fulls []
         (Throw (new_Error "Malformed message (oversize): f80f000255000000")).
Proof.
  assert (Htag : 0 <= 0x55 < 2 ^ 32) by (split; [discriminate | reflexivity]).
  split; [exact Htag|]. split; [|split].
  - apply (postMessage_frame [] 0x55 big_payload None Htag).
    rewrite big_payload_length. reflexivity.
  - exists big_fulls, []. split; [reflexivity|].
    split; [exact big_fulls_are_full|].
    split; [reflexivity | exact big_chunks_frame].
  - exact big_chunks_refused.
Qed.

(** ** close() *)


Lemma close_with_interface (err : option JsError) (w : World) (i : Interface) :
  _interface (this w) = Some i ->
  close err w
  = mkClosing
      (mkWorld (mkTransport (_device (this w)) (deviceSerial (this w))
                            (_endpoints (this w)) None)
               ((calls w ++ [interface_release true])
                ++ (if truthy (_device (this w)) then [device_close] else [])))
      (Fulfilled tt) [].
Proof.
  intros Hsome. unfold close, new_Promise, close_executor, then_, get_this.
  cbn [value world promise]. rewrite Hsome. cbn.
  unfold close_released, then_, get_this. cbn.
  destruct (_device (this w)) eqn:Hd; cbn; rewrite ?Hd, ?app_nil_r; reflexivity.
Qed.



(** ** init() *)

(** Once [Promise.all] is rejected, the reactions change neither it nor the
    promise of [init]. *)
Lemma settle_rejected (s : Session) (e : JsError) :
  s_all s = Rejected e ->
  s_all (settle s) = Rejected e /\ s_init (settle s) = s_init s.
Proof.
  intros Hall. unfold settle, Promise_all2. rewrite Hall. split; reflexivity.
Qed.

Lemma on_serial_rejected (env : UsbEnv) (s : Session) (e : JsError) :
  s_all s = Rejected e ->
  s_all (on_serial env s) = Rejected e
  /\ s_init (on_serial env s) = s_init s
  /\ s_interface (on_serial env s) = s_interface s.
Proof.
  intros Hall. unfold on_serial, settle, Promise_all2.
  cbn [s_all s_init s_interface].
  rewrite Hall. repeat split.
Qed.

Lemma on_altSetting_rejected (env : UsbEnv) (s : Session) (e : JsError) :
  s_all s = Rejected e ->
  s_all (on_altSetting env s) = Rejected e
  /\ s_init (on_altSetting env s) = s_init s
  /\ s_interface (on_altSetting env s)
     = promise (interface_callback env (altSetting_error env)
                                   (s_world s) (s_interface s)).
Proof.
  intros Hall. unfold on_altSetting, settle, Promise_all2.
  cbn [s_all s_init s_interface].
  rewrite Hall. repeat split.
Qed.

(** The promise of [_getDeviceInterface] when [claim()] throws [e]. *)
Lemma interface_executor_claim_fails (env : UsbEnv) (w : World) (d : Device)
      (e : JsError) :
  _device (this w) = Some d ->
  claim_error env = Some e ->
  promise (new_Promise (interface_executor env) w)
  = Rejected (if String.eqb (message e) "LIBUSB_ERROR_BUSY"
              then DeviceBusy else e).
Proof.
  intros Hd He.
  unfold new_Promise, interface_executor, then_, get_this, try_catch,
    usb_throwing, then_.
  cbn [value world promise]. rewrite Hd. cbn. rewrite He. cbn.
  destruct (String.eqb (message e) "LIBUSB_ERROR_BUSY"); reflexivity.
Qed.

Lemma serial_executor_pending (w : World) (d : Device) :
  _device (this w) = Some d ->
  promise (new_Promise serial_executor w) = Pending
  /\ _device (this (world (new_Promise serial_executor w))) = Some d.
Proof.
  intros Hd. unfold new_Promise, serial_executor, then_, get_this.
  cbn [value world promise]. rewrite Hd. cbn. split; [reflexivity | exact Hd].
Qed.

(** The synchronous part of [init] when a device is found and opens. *)
Lemma init_executor_started (env : UsbEnv) (w : World) (d : Device) :
  getFirstDevice (deviceList env) = Normal (Some d) ->
  open_error env = None ->
  exists w1 w2,
    _device (this w1) = Some d
    /\ w2 = world (new_Promise (interface_executor env)
                              (world (new_Promise serial_executor w1)))
    /\ new_Promise (init_executor env) w
       = mkRan w2 Pending
           (Normal (Some (promise (new_Promise serial_executor w1),
                          promise (new_Promise (interface_executor env)
                                     (world (new_Promise serial_executor w1)))))).
Proof.
  intros Hget Hopen.
  unfold new_Promise at 1. unfold init_executor, then_ at 1, try_catch.
  rewrite Hget. cbn [set_this value world promise]. 
  unfold then_ at 1, get_this. cbn [value world promise this _device].
  unfold usb_throwing. rewrite Hopen. cbn [then_ usb ret value world promise].
  eexists. eexists. split; [|split; [reflexivity|]].
  2:{ reflexivity. }
  reflexivity.
Qed.

(** A promise that is rejected stays as it is through the callback of
    [setAltSetting]. *)
Lemma interface_callback_rejected (env : UsbEnv) (err : option JsError)
      (w : World) (e : JsError) :
  promise (interface_callback env err w (Rejected e)) = Rejected e.
Proof.
  unfold interface_callback, _initEndpoints, _initLogEndpoint,
    _initMessageInEndpoint, _initMessageOutEndpoint, then_, get_this.
  destruct err; cbn;
    destruct (endpoint_of env 0); cbn; try reflexivity;
    destruct (endpoint_of env 1); cbn; reflexivity.
Qed.

Lemma init_claim_fails (env : UsbEnv) (w : World) (d : Device) (e : JsError) :
  getFirstDevice (deviceList env) = Normal (Some d) ->
  open_error env = None ->
  claim_error env = Some e ->
  exists s0 s1 s2,
    init env w = [s0; s1; s2]
    /\ Forall (fun s =>
                 s_init s
                 = Rejected (if String.eqb (message e) "LIBUSB_ERROR_BUSY"
                             then DeviceBusy else e)
                 /\ s_interface s
                    = Rejected (if String.eqb (message e) "LIBUSB_ERROR_BUSY"
                                then DeviceBusy else e))
              [s0; s1; s2].
Proof.
  intros Hget Hopen Hclaim.
  destruct (init_executor_started env w d Hget Hopen) as (w1 & w2 & Hd & Hw2 & Hrun).
  destruct (serial_executor_pending w1 d Hd) as (Hps & Hd').
  pose proof (interface_executor_claim_fails env _ d e Hd' Hclaim) as Hpi.
  unfold init. rewrite Hrun. cbn [value world promise].
  rewrite Hps, Hpi.
  set (E := if String.eqb (message e) "LIBUSB_ERROR_BUSY" then DeviceBusy else e).
  set (s0 := settle (mkSession w2 Pending (Rejected E) Pending Pending [] [])).
  assert (Hall0 : s_all s0 = Rejected E) by reflexivity.
  assert (Hinit0 : s_init s0 = Rejected E) by reflexivity.
  assert (Hif0 : s_interface s0 = Rejected E) by reflexivity.
  do 3 eexists. split; [reflexivity|].
  destruct (serial_first env).
  - destruct (on_serial_rejected env s0 E Hall0) as (Hall1 & Hinit1 & Hif1).
    destruct (on_altSetting_rejected env _ E Hall1) as (Hall2 & Hinit2 & Hif2).
    rewrite Hif1, Hif0, interface_callback_rejected in Hif2.
    repeat constructor; congruence.
  - destruct (on_altSetting_rejected env s0 E Hall0) as (Hall1 & Hinit1 & Hif1).
    rewrite Hif0, interface_callback_rejected in Hif1.
    destruct (on_serial_rejected env _ E Hall1) as (Hall2 & Hinit2 & Hif2).
    repeat constructor; congruence.
Qed.

(** C8: a device is found and opens, and [claim()] throws [e].  Then the
    promise of [_getDeviceInterface] and with it the promise of [init()] are
    rejected from the first turn of the event loop on, and stay so: with the
    error "Device is in use by another process" when the message of [e] is
    LIBUSB_ERROR_BUSY, with [e] itself otherwise.  In neither case is the
    transport ever ready. *)
Theorem C8_claim_failure (env : UsbEnv) (w : World) (d : Device) (e : JsError) :
  getFirstDevice (deviceList env) = Normal (Some d) ->
  open_error env = None ->
  claim_error env = Some e ->
  List.length (init env w) = 3%nat
  /\ (message e = "LIBUSB_ERROR_BUSY" ->
      Forall (fun s => s_init s = Rejected DeviceBusy
                       /\ s_interface s = Rejected DeviceBusy)
             (init env w))
  /\ (message e <> "LIBUSB_ERROR_BUSY" ->
      Forall (fun s => s_init s = Rejected e /\ s_interface s = Rejected e)
             (init env w))
  /\ Forall (fun s => ~ Ready s) (init env w).
Proof.
  intros Hget Hopen Hclaim.
  destruct (init_claim_fails env w d e Hget Hopen Hclaim)
    as (s0 & s1 & s2 & -> & Hall).
  split; [reflexivity|]. split; [|split].
  - intros Hbusy. apply String.eqb_eq in Hbusy. rewrite Hbusy in Hall. exact Hall.
  - intros Hother. apply String.eqb_neq in Hother. rewrite Hother in Hall.
    exact Hall.
  - revert Hall. apply Forall_impl. intros s [Hs _] [t Ht]. congruence.
Qed.

Lemma C8_claim_failure_witness :
  (getFirstDevice (deviceList (sample_env LIBUSB_ERROR_BUSY))
   = Normal (Some sample_tessel)
   /\ open_error (sample_env LIBUSB_ERROR_BUSY) = None
   /\ claim_error (sample_env LIBUSB_ERROR_BUSY) = Some LIBUSB_ERROR_BUSY)
  /\ Forall (fun s => s_init s = Rejected DeviceBusy
                      /\ s_interface s = Rejected DeviceBusy)
            (init (sample_env LIBUSB_ERROR_BUSY) fresh_world)
  /\ Forall (fun s => ~ Ready s)
            (init (sample_env LIBUSB_ERROR_BUSY) fresh_world).
Proof.
  assert (H1 : getFirstDevice (deviceList (sample_env LIBUSB_ERROR_BUSY))
               = Normal (Some sample_tessel)) by reflexivity.
  assert (H2 : open_error (sample_env LIBUSB_ERROR_BUSY) = None) by reflexivity.
  assert (H3 : claim_error (sample_env LIBUSB_ERROR_BUSY)
               = Some LIBUSB_ERROR_BUSY) by reflexivity.
  split; [exact (conj H1 (conj H2 H3))|].
  destruct (C8_claim_failure (sample_env LIBUSB_ERROR_BUSY) fresh_world
              sample_tessel LIBUSB_ERROR_BUSY H1 H2 H3)
    as (_ & Hbusy & _ & Hnever).
  split; [apply Hbusy; reflexivity | exact Hnever].
Defined.

(** The same for an error that is not LIBUSB_ERROR_BUSY: it comes out of
    [init] as it is. *)
Lemma other_claim_error_surfaces :
  Forall (fun s => s_init s = Rejected LIBUSB_ERROR_ACCESS)
         (init (sample_env LIBUSB_ERROR_ACCESS) fresh_world).
Proof. vm_compute. repeat constructor. Qed.

(** The scenario of a busy device end to end: [init] is rejected, a call
    of [setAltSetting] on the unclaimed interface leaves an exception to the
    event loop (there is no endpoint to start a stream on), and [close] then
    releases the interface, closes the device and resolves. *)
Lemma busy_then_close :
  let sessions := init (sample_env LIBUSB_ERROR_BUSY) fresh_world in
  let s := List.last sessions (mkSession fresh_world Pending Pending Pending Pending [] []) in
  s_init s = Rejected DeviceBusy
  /\ s_uncaught s = [undefined_property "startStream"]
  /\ c_promise (close (Some (new_Error "LIBUSB_ERROR_NOT_FOUND")) (s_world s))
     = Fulfilled tt
  /\ calls (c_world (close (Some (new_Error "LIBUSB_ERROR_NOT_FOUND")) (s_world s)))
     = [device_open; device_timeout 10000; device_getStringDescriptor 3;
        interface_claim; interface_setAltSetting 1;
        interface_release true; device_close].
Proof. vm_compute. repeat split. Qed.

(** * Further properties *)

(** ** MessagesIn: one transfer after the other *)

(** After a transfer that went through, the handler starts afresh. *)
Lemma messagesIn_stream_app (chunks rest : list Buffer) :
  completed (messagesIn_stream chunks) = Normal tt ->
  kept (messagesIn_stream chunks) = [] ->
  messagesIn_stream (chunks ++ rest)
  = mkHandled (kept (messagesIn_stream rest))
              (emitted (messagesIn_stream chunks)
               ++ emitted (messagesIn_stream rest))
              (completed (messagesIn_stream rest)).
Proof.
  intros Hok Hkept. unfold messagesIn_stream in *.
  rewrite messagesIn_feed_app by exact Hok. rewrite Hkept. reflexivity.
Qed.

Lemma messagesIn_stream_chunked (tag : Z) (payload : Buffer)
      (chunks : list Buffer) :
  0 <= tag < 2 ^ 32 ->
  Buffer_length payload + 8 < (MAX_FULL_CHUNKS + 1) * TRANSFER_SIZE ->
  chunked chunks (frame_bytes tag payload) ->
  messagesIn_stream chunks = mkHandled [] [Message tag payload] (Normal tt).
Proof.
  intros Htag Hsize (fulls & last & -> & Hfull & Hshort & Hcat).
  destruct (frame_bytes_read tag payload Htag) as (Hrtag & Hrpay & Hrlen).
  pose proof (transfer_length fulls last Hfull) as Htotal.
  rewrite Hcat, Hrlen in Htotal.
  assert (Hroom : Z.of_nat (List.length fulls) <= MAX_FULL_CHUNKS).
  { unfold short_chunk, Buffer_length, MAX_FULL_CHUNKS, TRANSFER_SIZE in *.
    lia. }
  rewrite messagesIn_stream_last by assumption.
  rewrite messagesIn_data_frame;
    [| assumption | rewrite Hcat, Hrlen; unfold Buffer_length; lia].
  rewrite Hcat, Hrtag, Hrpay. reflexivity.
Qed.

Lemma messagesIn_stream_message (m : Z * Buffer) :
  postable m ->
  messagesIn_stream (usb_chunks (frame_bytes (fst m) (snd m)))
  = mkHandled [] [Message_of m] (Normal tt).
Proof.
  intros [Htag Hsize].
  apply messagesIn_stream_chunked; [exact Htag | exact Hsize |].
  apply usb_chunks_chunked.
Qed.

(** [_postMessage] on a transport that has its messages-out endpoint: the
    frame goes to that endpoint and the promise follows the transfer. *)
Lemma Transport_postMessage_frame (t : USBTransport) (mem : Buffer)
      (endpoint : nat) (tag : Z) (payload : Buffer) (err : option JsError) :
  messagesOut (_endpoints t) = Some endpoint ->
  0 <= tag < 2 ^ 32 ->
  Buffer_length payload < 2 ^ 32 ->
  Transport._postMessage t mem tag (Some payload) err
  = Normal (Transport.mkSending
              (Some (endpoint, frame_bytes tag payload))
              (match err with
               | Some e => Rejected e
               | None => Fulfilled tt
               end)).
Proof.
  intros Hout Htag Hlen. unfold Transport._postMessage.
  rewrite (postMessage_frame mem tag payload err Htag Hlen).
  cbn [bind]. rewrite Hout. reflexivity.
Qed.

Lemma postable_length (m : Z * Buffer) :
  postable m -> Buffer_length (snd m) < 2 ^ 32.
Proof.
  intros [_ Hsize]. unfold MAX_FULL_CHUNKS, TRANSFER_SIZE in Hsize.
  change (2 ^ 32) with 4294967296. lia.
Qed.

(** X1: messages posted one after the other come back one after the other.
    On a transport that has its messages-out endpoint, [_postMessage] called
    for each message of a sequence (32-bit tags, frames shorter than 8193
    full chunks) gives the endpoint one frame per message, and the chunks in
    which these frames arrive, transfer after transfer, make the MessagesIn
    handler emit exactly these messages, in order, and leave its array
    empty. *)
Theorem X1_message_sequence (t : USBTransport) (mem : Buffer) (endpoint : nat)
        (msgs : list (Z * Buffer)) :
  messagesOut (_endpoints t) = Some endpoint ->
  Forall postable msgs ->
  exists frames,
    post_all t mem msgs = Some frames
    /\ List.length frames = List.length msgs
    /\ messagesIn_stream (flat_map usb_chunks frames)
       = mkHandled [] (map Message_of msgs) (Normal tt).
Proof.
  intros Hout. induction 1 as [|m msgs Hm _ (frames & Hpost & Hlen & Hin)].
  - exists []. repeat split.
  - exists (frame_bytes (fst m) (snd m) :: frames).
    split; [|split].
    + cbn [post_all].
      rewrite (Transport_postMessage_frame t mem endpoint (fst m) (snd m) None
                 Hout (proj1 Hm) (postable_length m Hm)).
      cbn [Transport.handed]. rewrite Hpost. reflexivity.
    + cbn [List.length]. rewrite Hlen. reflexivity.
    + cbn [flat_map map].
      pose proof (messagesIn_stream_message m Hm) as Hone.
      rewrite messagesIn_stream_app by (rewrite Hone; reflexivity).
      rewrite Hone, Hin. reflexivity.
Qed.

Lemma X1_message_sequence_witness :
  (messagesOut (_endpoints sample_transport) = Some 2%nat
   /\ Forall postable sample_messages)
  /\ exists frames,
       post_all sample_transport [] sample_messages = Some frames
       /\ messagesIn_stream (flat_map usb_chunks frames)
          = mkHandled []
              [Message 0x55 (list_byte_of_string "hi"); Message 0x50 [];
               Message 0x55 sample_long_payload]
              (Normal tt).
Proof.
  assert (H1 : messagesOut (_endpoints sample_transport) = Some 2%nat)
    by reflexivity.
  assert (H2 : Forall postable sample_messages).
  { repeat constructor; try discriminate. }
  split; [exact (conj H1 H2)|].
  destruct (X1_message_sequence sample_transport [] 2%nat sample_messages
              H1 H2) as (frames & Hpost & _ & Hin).
  exists frames. split; [exact Hpost | exact Hin].
Defined.

(** ** MessagesIn: what a call of the handler can do *)

Inductive data_outcome (buffers : list Buffer) (data : Buffer) : Handled -> Prop :=
| outcome_message :
    short_chunk data ->
    8 <= Buffer_length (Buffer_concat (buffers ++ [data])) ->
    data_outcome buffers data
      (mkHandled []
         [Message (le_decode (Buffer_slice (Buffer_concat (buffers ++ [data])) 4 8))
                  (skipn 8 (Buffer_concat (buffers ++ [data])))]
         (Normal tt))
| outcome_nothing :
    short_chunk data ->
    Buffer_length (Buffer_concat (buffers ++ [data])) = 0 ->
    data_outcome buffers data (mkHandled [] [] (Normal tt))
| outcome_truncated :
    short_chunk data ->
    1 <= Buffer_length (Buffer_concat (buffers ++ [data])) <= 7 ->
    data_outcome buffers data (mkHandled (buffers ++ [data]) [] (Throw out_of_range))
| outcome_more :
    TRANSFER_SIZE <= Buffer_length data ->
    Z.of_nat (List.length buffers) < MAX_FULL_CHUNKS ->
    data_outcome buffers data (mkHandled (buffers ++ [data]) [] (Normal tt))
| outcome_oversize :
    TRANSFER_SIZE <= Buffer_length data ->
    MAX_FULL_CHUNKS <= Z.of_nat (List.length buffers) ->
    data_outcome buffers data
      (mkHandled (buffers ++ [data]) []
         (Throw (OversizeMessage (nth 0 (buffers ++ [data]) [])))).

Lemma messagesIn_data_outcome (buffers : list Buffer) (data : Buffer) :
  data_outcome buffers data (messagesIn_data buffers data).
Proof.
  destruct (Z_lt_le_dec (Buffer_length data) TRANSFER_SIZE) as [Hs|Hf].
  - assert (Hpos : 0 <= Buffer_length (Buffer_concat (buffers ++ [data])))
      by (unfold Buffer_length; lia).
    destruct (Z_lt_le_dec (Buffer_length (Buffer_concat (buffers ++ [data]))) 8)
      as [H8|H8].
    + destruct (Z.eq_dec (Buffer_length (Buffer_concat (buffers ++ [data]))) 0)
        as [H0|H0].
      * rewrite messagesIn_data_nothing by assumption.
        apply outcome_nothing; assumption.
      * rewrite messagesIn_data_truncated by (assumption || lia).
        apply outcome_truncated; [assumption | lia].
    + rewrite messagesIn_data_frame by assumption.
      apply outcome_message; assumption.
  - destruct (Z_lt_le_dec (Z.of_nat (List.length buffers)) MAX_FULL_CHUNKS)
      as [Hr|Hr].
    + rewrite messagesIn_data_more by assumption.
      apply outcome_more; assumption.
    + rewrite messagesIn_data_oversize by assumption.
      apply outcome_oversize; assumption.
Qed.

Lemma chunks_length_bound (chunks : list Buffer) :
  Forall chunk_ok chunks ->
  Buffer_length (Buffer_concat chunks)
  <= TRANSFER_SIZE * Z.of_nat (List.length chunks).
Proof.
  unfold Buffer_length, Buffer_concat.
  induction 1 as [|c chunks Hc _ IH]; [simpl; lia|].
  cbn [concat List.length]. rewrite length_app.
  unfold chunk_ok, Buffer_length in Hc. lia.
Qed.

Lemma messagesIn_feed_bound (chunks : list Buffer) :
  forall buffers : list Buffer,
    Forall chunk_ok chunks ->
    Forall chunk_ok buffers ->
    Z.of_nat (List.length buffers) <= MAX_FULL_CHUNKS ->
    forall tag payload,
      In (Message tag payload) (emitted (messagesIn_feed buffers chunks)) ->
      Buffer_length payload <= MAX_PAYLOAD.
Proof.
  induction chunks as [|c chunks IH]; intros buffers Hchunks Hbuf Hroom tag payload Hin.
  - simpl in Hin. contradiction.
  - inversion Hchunks as [|? ? Hc Hrest]; subst.
    cbn [messagesIn_feed] in Hin.
    destruct (messagesIn_data_outcome buffers c)
      as [Hs H8 | Hs H0 | Hs H7 | Hf Hr | Hf Hr];
      cbn [completed kept emitted] in Hin.
    + apply in_app_or in Hin as [Hin|Hin].
      * destruct Hin as [Heq|[]].
        assert (Hp : payload = skipn 8 (Buffer_concat (buffers ++ [c])))
          by (injection Heq; intros; symmetry; assumption).
        rewrite Hp. clear Heq Hp.
        pose proof (chunks_length_bound buffers Hbuf) as Hb.
        rewrite Buffer_concat_app in H8 |- *.
        unfold Buffer_length, Buffer_concat in *.
        rewrite length_skipn. rewrite length_app in *.
        cbn [concat] in *. rewrite app_nil_r in *.
        unfold short_chunk, Buffer_length, MAX_PAYLOAD, MAX_FULL_CHUNKS,
          TRANSFER_SIZE in *. lia.
      * apply (IH [] Hrest (Forall_nil _)
                   ltac:(unfold MAX_FULL_CHUNKS; simpl; lia) tag payload Hin).
    + apply (IH [] Hrest (Forall_nil _)
                ltac:(unfold MAX_FULL_CHUNKS; simpl; lia) tag payload Hin).
    + contradiction.
    + apply (IH (buffers ++ [c]) Hrest) with (tag := tag);
        [apply Forall_app; split; [exact Hbuf | constructor; [exact Hc | constructor]]
        | rewrite length_app; simpl; lia
        | exact Hin].
    + contradiction.
Qed.

(** X2: the handler never lets through more than it is meant to hold.  When
    no chunk is longer than the 4096 bytes the stream asks for, the payload
    of every [message] the handler emits has at most 8192 * 4096 + 4095 - 8
    bytes: exactly the payloads that do not trip the oversize guard. *)
Theorem X2_payload_bound (chunks : list Buffer) (tag : Z) (payload : Buffer) :
  Forall chunk_ok chunks ->
  In (Message tag payload) (emitted (messagesIn_stream chunks)) ->
  Buffer_length payload <= MAX_PAYLOAD
  /\ Buffer_length payload + 8 < (MAX_FULL_CHUNKS + 1) * TRANSFER_SIZE.
Proof.
  intros Hok Hin.
  assert (H : Buffer_length payload <= MAX_PAYLOAD).
  { apply (messagesIn_feed_bound chunks [] Hok (Forall_nil _)
             ltac:(unfold MAX_FULL_CHUNKS; simpl; lia) tag payload Hin). }
  split; [exact H|].
  unfold MAX_PAYLOAD, MAX_FULL_CHUNKS, TRANSFER_SIZE in *. lia.
Qed.

Lemma X2_payload_bound_witness :
  (Forall chunk_ok [sample_frame]
   /\ In (Message 0x55 [x68; x69]) (emitted (messagesIn_stream [sample_frame])))
  /\ Buffer_length [x68; x69] <= MAX_PAYLOAD.
Proof.
  assert (H1 : Forall chunk_ok [sample_frame])
    by (repeat constructor; discriminate).
  assert (H2 : In (Message 0x55 [x68; x69])
                  (emitted (messagesIn_stream [sample_frame])))
    by (left; reflexivity).
  split; [exact (conj H1 H2)|].
  exact (proj1 (X2_payload_bound _ 0x55 [x68; x69] H1 H2)).
Defined.

Lemma short_count_cons (c : Buffer) (chunks : list Buffer) :
  short_count (c :: chunks)
  = Nat.add (if Buffer_length c <? TRANSFER_SIZE then 1%nat else 0%nat)
            (short_count chunks).
Proof.
  unfold short_count. cbn [filter].
  destruct (Buffer_length c <? TRANSFER_SIZE); reflexivity.
Qed.

Lemma messagesIn_feed_count (chunks : list Buffer) :
  forall buffers : list Buffer,
    (List.length (emitted (messagesIn_feed buffers chunks))
     <= short_count chunks)%nat.
Proof.
  induction chunks as [|c chunks IH]; intros buffers; [simpl; lia|].
  rewrite short_count_cons. cbn [messagesIn_feed].
  destruct (messagesIn_data_outcome buffers c)
    as [Hs H8 | Hs H0 | Hs H7 | Hf Hr | Hf Hr];
    cbn [completed kept emitted List.length app];
    try rewrite (is_short c Hs); try rewrite (not_short c Hf);
    try (specialize (IH []); lia);
    try (specialize (IH (buffers ++ [c])); lia);
    try (simpl; lia).
Qed.

(** X3: a [message] is emitted only when a short chunk arrives, and at most
    one for each: whatever the chunks (and whatever the array held before),
    the handler emits no more messages than there are chunks shorter than
    4096 bytes, and none if there is no such chunk. *)
Theorem X3_one_message_per_short_chunk
        (buffers chunks : list Buffer) :
  (List.length (emitted (messagesIn_feed buffers chunks))
   <= short_count chunks)%nat
  /\ (Forall (fun c => TRANSFER_SIZE <= Buffer_length c) chunks ->
      emitted (messagesIn_feed buffers chunks) = []).
Proof.
  split; [apply messagesIn_feed_count|].
  intros Hfull. pose proof (messagesIn_feed_count chunks buffers) as Hc.
  assert (Hz : short_count chunks = 0%nat).
  { clear Hc. induction Hfull as [|c chunks Hc _ IH]; [reflexivity|].
    rewrite short_count_cons, (not_short c Hc), IH. reflexivity. }
  rewrite Hz in Hc.
  destruct (emitted (messagesIn_feed buffers chunks)); [reflexivity|].
  simpl in Hc. lia.
Qed.

(** ** Log: every chunk *)

Section LogMore.
Variable utf8_decode : Buffer -> string.

Lemma log_tail_head (rs : list (byte * Buffer)) (t : chunk_tail) :
  log_chunk rs ++ tail_bytes t = []
  \/ exists r, log_chunk rs ++ tail_bytes t = STX :: r.
Proof.
  destruct rs as [|[lvl text] rs].
  - destruct t; [left; reflexivity | right; exists []; reflexivity].
  - right. simpl. eexists. reflexivity.
Qed.

Lemma log_while_tail (pre : Buffer) (events : list Event) (fuel : nat)
      (t : chunk_tail) :
  (List.length (tail_bytes t) <= fuel)%nat ->
  log_while utf8_decode fuel (pre ++ tail_bytes t) (List.length pre) events
  = Some (events ++ tail_events t, Normal tt).
Proof.
  intros Hfuel. destruct t.
  - simpl. rewrite !app_nil_r.
    destruct fuel; simpl; rewrite Nat.ltb_irrefl; reflexivity.
  - simpl in Hfuel. destruct fuel as [|fuel]; [lia|].
    cbn [log_while tail_bytes tail_events].
    replace (_ <? _)%nat with true
      by (symmetry; apply Nat.ltb_lt; rewrite length_app; simpl; lia).
    rewrite Buffer_get_app. change (strict_eq (Some (byte_to_Z STX)) 1) with true.
    cbn [negb].
    replace (List.length (pre ++ [STX]) - (List.length pre + 2))%nat with 0%nat
      by (rewrite length_app; simpl; lia).
    cbn [scan_STX].
    replace (Buffer_get (pre ++ [STX]) (List.length pre + 1)) with (@None Z).
    2:{ replace (List.length pre + 1)%nat with (List.length (pre ++ [STX]))
          by (rewrite length_app; simpl; lia).
        symmetry. apply Buffer_get_end. }
    replace (toString_utf8 utf8_decode (pre ++ [STX]) (List.length pre + 2)
                           (List.length pre + 2)) with "".
    2:{ unfold toString_utf8.
        replace (_ <=? _)%nat with true; [reflexivity|].
        symmetry. apply Nat.leb_le. lia. }
    destruct fuel; cbn [log_while];
      (replace (_ <? _)%nat with false
        by (symmetry; apply Nat.ltb_ge; rewrite length_app; simpl; lia));
      reflexivity.
Qed.

Lemma log_while_records_tail (records : list (byte * Buffer)) (t : chunk_tail) :
  Forall text_ok records ->
  forall (pre : Buffer) (events : list Event) (fuel : nat),
    (List.length (log_chunk records ++ tail_bytes t) <= fuel)%nat ->
    log_while utf8_decode fuel (pre ++ log_chunk records ++ tail_bytes t)
              (List.length pre) events
    = Some (events ++ map (debug_of utf8_decode) records ++ tail_events t,
            Normal tt).
Proof.
  induction 1 as [|[lvl text] rs Hok Hrs IH]; intros pre events fuel Hfuel.
  - cbn [log_chunk flat_map map app] in *. apply log_while_tail. exact Hfuel.
  - unfold text_ok in Hok. simpl in Hok.
    change (log_chunk ((lvl, text) :: rs))
      with (STX :: lvl :: text ++ log_chunk rs) in *.
    cbn [app] in *. rewrite <- app_assoc in *.
    set (rest := log_chunk rs ++ tail_bytes t) in *.
    simpl in Hfuel. rewrite length_app in Hfuel.
    destruct fuel as [|fuel]; [lia|].
    cbn [log_while].
    replace (_ <? _)%nat with true
      by (symmetry; apply Nat.ltb_lt; rewrite length_app; simpl; lia).
    rewrite Buffer_get_app. change (strict_eq (Some (byte_to_Z STX)) 1) with true.
    cbn [negb].
    replace (pre ++ STX :: lvl :: text ++ rest)
      with ((pre ++ [STX; lvl]) ++ text ++ rest)
      by (rewrite <- app_assoc; reflexivity).
    assert (Hlen : (List.length pre + 2 = List.length (pre ++ [STX; lvl]))%nat)
      by (rewrite length_app; simpl; lia).
    replace (List.length ((pre ++ [STX; lvl]) ++ text ++ rest)
             - (List.length pre + 2))%nat
      with (List.length text + List.length rest)%nat
      by (rewrite !length_app; simpl; lia).
    rewrite Hlen.
    rewrite (scan_STX_text text _ _ Hok (log_tail_head rs t)).
    rewrite toString_utf8_text.
    replace (Buffer_get _ (List.length pre + 1))
      with (Some (byte_to_Z lvl)).
    2:{ rewrite <- app_assoc.
        replace (pre ++ [STX; lvl] ++ text ++ rest)
          with ((pre ++ [STX]) ++ lvl :: text ++ rest)
          by (rewrite <- app_assoc; reflexivity).
        replace (List.length pre + 1)%nat with (List.length (pre ++ [STX]))
          by (rewrite length_app; simpl; lia).
        rewrite Buffer_get_app. reflexivity. }
    rewrite app_assoc.
    rewrite <- (length_app (pre ++ [STX; lvl]) text).
    unfold rest. rewrite IH by (fold rest; lia).
    cbn [map app]. rewrite <- app_assoc. reflexivity.
Qed.

(** A run of bytes up to its first marker. *)
Lemma span_STX (r : Buffer) :
  exists text r',
    r = text ++ r' /\ ~ In STX text /\ (r' = [] \/ exists r'', r' = STX :: r'').
Proof.
  induction r as [|b r (text & r' & Hr & Hno & Hr')].
  - exists [], []. split; [reflexivity|]. split; [intros []|left; reflexivity].
  - destruct (Byte.eqb b STX) eqn:E.
    + apply Byte.byte_dec_bl in E. subst b.
      exists [], (STX :: r). split; [reflexivity|].
      split; [intros [] | right; eexists; reflexivity].
    + exists (b :: text), r'. split; [rewrite Hr; reflexivity|].
      split; [|exact Hr'].
      intros [Hb|Hin]; [|exact (Hno Hin)].
      subst b. discriminate E.
Qed.

(** Every chunk that starts with a marker is made of whole records and,
    possibly, a last marker. *)
Lemma parse_STX (n : nat) :
  forall rest : Buffer,
    (List.length rest <= n)%nat ->
    exists records t,
      Forall text_ok records
      /\ STX :: rest = log_chunk records ++ tail_bytes t.
Proof.
  induction n as [|n IH]; intros rest Hn.
  - destruct rest; [|simpl in Hn; lia].
    exists [], tail_marker. split; [constructor|reflexivity].
  - destruct rest as [|lvl r].
    + exists [], tail_marker. split; [constructor|reflexivity].
    + destruct (span_STX r) as (text & r' & Hr & Hno & [Hr'|[r'' Hr']]).
      * exists [(lvl, text)], tail_none. split; [repeat constructor; exact Hno|].
        subst. unfold log_chunk. cbn [flat_map log_record fst snd tail_bytes].
        rewrite !app_nil_r. reflexivity.
      * destruct (IH r'') as (records & t & Hok & Hparse).
        { subst. simpl in Hn. rewrite length_app in Hn. simpl in Hn. lia. }
        exists ((lvl, text) :: records), t.
        split; [constructor; [exact Hno | exact Hok]|].
        change (log_chunk ((lvl, text) :: records))
          with (STX :: lvl :: text ++ log_chunk records).
        cbn [app]. rewrite <- app_assoc, <- Hparse. subst. reflexivity.
Qed.

End LogMore.

(** X4: a chunk that ends right after a marker.  When whole records are
    followed by a marker with nothing behind it, the handler emits the events
    of the records and then one more [debug] event, with an empty text and
    no level at all ([undefined]: the byte after the marker is read past the
    end of the chunk), and returns normally. *)
Theorem X4_log_trailing_marker
        (utf8_decode : Buffer -> string) (records : list (byte * Buffer)) :
  Forall text_ok records ->
  log_data utf8_decode (log_chunk records ++ [STX])
  = Some (map (debug_of utf8_decode) records ++ [Debug "" None], Normal tt).
Proof.
  intros Hok. unfold log_data.
  exact (log_while_records_tail utf8_decode records tail_marker Hok [] [] _
                                (Nat.le_refl _)).
Qed.

Lemma X4_log_trailing_marker_witness :
  Forall text_ok sample_records
  /\ log_data ascii_decode (log_chunk sample_records ++ [STX])
     = Some ([Debug "boot" (Some 2); Debug "" (Some 1);
              Debug "ready 1/2" (Some 22); Debug "" None], Normal tt).
Proof.
  assert (Hok : Forall text_ok sample_records).
  { repeat constructor; unfold text_ok, STX; simpl; intuition discriminate. }
  split; [exact Hok|].
  rewrite (X4_log_trailing_marker ascii_decode sample_records Hok).
  reflexivity.
Defined.

(** X5: the framing error can only come from the first byte.  Whatever
    follows a first marker, the chunk is made of whole records (a marker, a
    severity byte that may itself be the marker, a text without marker) and
    possibly a last marker alone, and the handler emits the events of these
    records (and of the last marker) and returns normally. *)
Theorem X5_log_marker_first_never_throws
        (utf8_decode : Buffer -> string) (rest : Buffer) :
  exists records t,
    Forall text_ok records
    /\ STX :: rest = log_chunk records ++ tail_bytes t
    /\ log_data utf8_decode (STX :: rest)
       = Some (map (debug_of utf8_decode) records ++ tail_events t, Normal tt).
Proof.
  destruct (parse_STX (List.length rest) rest (Nat.le_refl _))
    as (records & t & Hok & Hparse).
  exists records, t. split; [exact Hok|]. split; [exact Hparse|].
  rewrite Hparse. unfold log_data.
  exact (log_while_records_tail utf8_decode records t Hok [] [] _
                                (Nat.le_refl _)).
Qed.

(** ** init(): the synchronous part *)

Lemma serial_executor_run (w : World) (d : Device) :
  _device (this w) = Some d ->
  new_Promise serial_executor w
  = mkRan (mkWorld (this w)
                   (calls w ++ [device_getStringDescriptor
                                  (iSerialNumber (deviceDescriptor d))]))
          Pending (Normal tt).
Proof.
  intros Hd. unfold new_Promise, serial_executor, then_, get_this.
  cbn [value world promise]. rewrite Hd. reflexivity.
Qed.

Lemma interface_executor_run (env : UsbEnv) (w : World) (d : Device) :
  _device (this w) = Some d ->
  new_Promise (interface_executor env) w
  = mkRan (mkWorld (mkTransport (Some d) (deviceSerial (this w))
                                (_endpoints (this w)) (Some (mkInterface 0)))
                   ((calls w ++ [interface_claim])
                    ++ [interface_setAltSetting 1]))
          (match claim_error env with
           | Some e => Rejected (if String.eqb (message e) "LIBUSB_ERROR_BUSY"
                                 then DeviceBusy else e)
           | None => Pending
           end)
          (Normal tt).
Proof.
  intros Hd. unfold new_Promise, interface_executor, then_, get_this, try_catch,
    usb_throwing, then_.
  cbn [value world promise]. rewrite Hd. cbn.
  destruct (claim_error env) as [e|]; cbn; rewrite ?Hd; [|reflexivity].
  destruct (String.eqb (message e) "LIBUSB_ERROR_BUSY"); reflexivity.
Qed.

Lemma init_executor_run (env : UsbEnv) (w : World) (d : Device) :
  getFirstDevice (deviceList env) = Normal (Some d) ->
  open_error env = None ->
  new_Promise (init_executor env) w
  = mkRan
      (mkWorld
         (mkTransport (Some d) (deviceSerial (this w)) (_endpoints (this w))
                      (Some (mkInterface 0)))
         (((((calls w ++ [device_open]) ++ [device_timeout 10000])
             ++ [device_getStringDescriptor (iSerialNumber (deviceDescriptor d))])
            ++ [interface_claim]) ++ [interface_setAltSetting 1]))
      Pending
      (Normal (Some (Pending,
                     match claim_error env with
                     | Some e => Rejected (if String.eqb (message e) "LIBUSB_ERROR_BUSY"
                                           then DeviceBusy else e)
                     | None => Pending
                     end))).
Proof.
  intros Hget Hopen.
  unfold new_Promise at 1. unfold init_executor, then_ at 1, try_catch.
  rewrite Hget. unfold usb_throwing. rewrite Hopen.
  cbv [then_ set_this usb ret get_this world promise value this _device
       calls deviceSerial _endpoints _interface].
  rewrite (serial_executor_run _ d) by reflexivity.
  cbv [world promise value this calls].
  rewrite (interface_executor_run env _ d) by reflexivity.
  reflexivity.
Qed.

(** ** init(): the callbacks *)

Lemma endpoint_of_some (env : UsbEnv) (n : nat) :
  (n < interface_endpoints env)%nat -> endpoint_of env n = Some n.
Proof.
  intros H. unfold endpoint_of.
  replace (_ <? _)%nat with true; [reflexivity|].
  symmetry. apply Nat.ltb_lt. exact H.
Qed.

Lemma endpoint_of_none (env : UsbEnv) (n : nat) :
  (interface_endpoints env <= n)%nat -> endpoint_of env n = None.
Proof.
  intros H. unfold endpoint_of.
  replace (_ <? _)%nat with false; [reflexivity|].
  symmetry. apply Nat.ltb_ge. exact H.
Qed.

(** With the log and messages-in endpoints there, the callback of
    [setAltSetting] binds the endpoints, starts the two streams and calls
    [resolve], after [reject] if it was given an error. *)
Lemma interface_callback_run (env : UsbEnv) (err : option JsError)
      (w : World) (p : Promise unit) :
  (2 <= interface_endpoints env)%nat ->
  interface_callback env err w p
  = mkRan
      (mkWorld
         (mkTransport (_device (this w)) (deviceSerial (this w))
                      (mkEndpoints (Some 0%nat) (Some 1%nat) (endpoint_of env 2))
                      (_interface (this w)))
         ((calls w ++ [endpoint_startStream 0 4 TRANSFER_SIZE])
          ++ [endpoint_startStream 1 2 TRANSFER_SIZE]))
      (resolve tt (match err with Some e => reject e p | None => p end))
      (Normal tt).
Proof.
  intros Hn.
  unfold interface_callback, _initEndpoints, _initLogEndpoint,
    _initMessageInEndpoint, _initMessageOutEndpoint.
  rewrite (endpoint_of_some env 0), (endpoint_of_some env 1) by lia.
  destruct err; reflexivity.
Qed.

(** Without a log endpoint, it throws as soon as it wants to start the log
    stream: [resolve] is not reached. *)
Lemma interface_callback_no_log (env : UsbEnv) (err : option JsError)
      (w : World) (p : Promise unit) :
  interface_endpoints env = 0%nat ->
  interface_callback env err w p
  = mkRan
      (mkWorld
         (mkTransport (_device (this w)) (deviceSerial (this w))
                      (mkEndpoints None None None) (_interface (this w)))
         (calls w))
      (match err with Some e => reject e p | None => p end)
      (Throw (undefined_property "startStream")).
Proof.
  intros Hn.
  unfold interface_callback, _initEndpoints, _initLogEndpoint,
    _initMessageInEndpoint, _initMessageOutEndpoint.
  rewrite !endpoint_of_none by lia.
  destruct err; reflexivity.
Qed.

(** With a log endpoint only, the log stream is started and the callback
    throws at the messages-in endpoint. *)
Lemma interface_callback_no_messagesIn (env : UsbEnv) (err : option JsError)
      (w : World) (p : Promise unit) :
  interface_endpoints env = 1%nat ->
  interface_callback env err w p
  = mkRan
      (mkWorld
         (mkTransport (_device (this w)) (deviceSerial (this w))
                      (mkEndpoints (Some 0%nat) None None) (_interface (this w)))
         (calls w ++ [endpoint_startStream 0 4 TRANSFER_SIZE]))
      (match err with Some e => reject e p | None => p end)
      (Throw (undefined_property "startStream")).
Proof.
  intros Hn.
  unfold interface_callback, _initEndpoints, _initLogEndpoint,
    _initMessageInEndpoint, _initMessageOutEndpoint.
  rewrite (endpoint_of_some env 0), !endpoint_of_none by lia.
  destruct err; reflexivity.
Qed.

Lemma serial_callback_run (reply : JsError + string) (w : World)
      (p : Promise string) :
  serial_callback reply w p
  = match reply with
    | inl err => mkRan w (reject err p) (Normal tt)
    | inr serialNumber =>
        mkRan (mkWorld (mkTransport (_device (this w)) (Some serialNumber)
                                    (_endpoints (this w)) (_interface (this w)))
                       (calls w))
              (resolve serialNumber p) (Normal tt)
    end.
Proof. destruct reply; reflexivity. Qed.

Lemma init_started (env : UsbEnv) (w : World) (d : Device) :
  getFirstDevice (deviceList env) = Normal (Some d) ->
  open_error env = None ->
  claim_error env = None ->
  init env w
  = let w0 := mkWorld (mkTransport (Some d) (deviceSerial (this w))
                                   (_endpoints (this w)) (Some (mkInterface 0)))
                      (calls w ++ setup_calls d) in
    let s0 := mkSession w0 Pending Pending Pending Pending [] [] in
    let s1 := if serial_first env then on_serial env s0
              else on_altSetting env s0 in
    let s2 := if serial_first env then on_altSetting env s1
              else on_serial env s1 in
    [s0; s1; s2].
Proof.
  intros Hget Hopen Hclaim. unfold init.
  rewrite (init_executor_run env w d Hget Hopen), Hclaim.
  cbv [value world promise]. unfold setup_calls.
  repeat rewrite <- app_assoc. reflexivity.
Qed.

Lemma init_comes_up (env : UsbEnv) (w : World) (d : Device) (serial : string) :
  getFirstDevice (deviceList env) = Normal (Some d) ->
  open_error env = None ->
  claim_error env = None ->
  altSetting_error env = None ->
  (2 <= interface_endpoints env)%nat ->
  serial_reply env = inr serial ->
  exists s0 s1 s2,
    init env w = [s0; s1; s2]
    /\ s_init s0 = Pending
    /\ s_init s1 = Pending
    /\ s_emitted s1 = []
    /\ s_init s2 = Fulfilled (ready_transport env d serial)
    /\ this (s_world s2) = ready_transport env d serial
    /\ calls (s_world s2) = calls w ++ setup_calls d ++ stream_calls
    /\ s_emitted s2 = [connected serial]
    /\ s_uncaught s2 = [].
Proof.
  intros Hget Hopen Hclaim Halt Hn Hserial.
  rewrite (init_started env w d Hget Hopen Hclaim). cbv zeta.
  do 3 eexists. split; [reflexivity|].
  destruct (serial_first env); unfold on_serial, on_altSetting;
    cbn [s_world s_serial s_interface s_all s_init s_emitted s_uncaught];
    rewrite ?serial_callback_run, ?Hserial, ?Halt;
    rewrite ?(interface_callback_run env _ _ _ Hn);
    cbn [world promise value uncaught resolve reject settle Promise_all2
         s_world s_serial s_interface s_all s_init s_emitted s_uncaught app
         this calls _device deviceSerial _endpoints _interface];
    rewrite ?serial_callback_run, ?Hserial, ?Halt;
    rewrite ?(interface_callback_run env _ _ _ Hn);
    cbn [world promise value uncaught resolve reject settle Promise_all2
         s_world s_serial s_interface s_all s_init s_emitted s_uncaught app
         this calls _device deviceSerial _endpoints _interface];
    unfold ready_transport, stream_calls, connected, TRANSFER_SIZE;
    repeat split; rewrite <- ?app_assoc; reflexivity.
Qed.

(** X6: when everything works, [init] comes up after the second callback.
    A device is found and opens, the interface is claimed, the alternate
    setting is selected, the interface has its log and messages-in endpoints
    and the serial number is read.  Then, in whichever order the two
    callbacks come, the promise of [init] is pending until both have come
    and is then fulfilled with the transport, which holds the device, its
    serial number, the endpoints and the interface; the calls made are, in
    this order, open, timeout 10000, getStringDescriptor, claim,
    setAltSetting(1), startStream(4, 4096) on the log endpoint and
    startStream(2, 4096) on the messages-in endpoint; one [debug] event is
    emitted, its text the serial number followed by a comma; no exception
    reaches the event loop. *)
Theorem X6_init_ready (env : UsbEnv) (w : World) (d : Device) (serial : string) :
  getFirstDevice (deviceList env) = Normal (Some d) ->
  open_error env = None ->
  claim_error env = None ->
  altSetting_error env = None ->
  (2 <= interface_endpoints env)%nat ->
  serial_reply env = inr serial ->
  exists s0 s1 s2,
    init env w = [s0; s1; s2]
    /\ s_init s0 = Pending
    /\ s_init s1 = Pending
    /\ s_emitted s1 = []
    /\ s_init s2 = Fulfilled (ready_transport env d serial)
    /\ this (s_world s2) = ready_transport env d serial
    /\ calls (s_world s2) = calls w ++ setup_calls d ++ stream_calls
    /\ s_emitted s2 = [connected serial]
    /\ s_uncaught s2 = [].
Proof. exact (init_comes_up env w d serial). Qed.

Lemma X6_init_ready_witness :
  (getFirstDevice (deviceList (working_env false)) = Normal (Some sample_tessel)
   /\ open_error (working_env false) = None
   /\ claim_error (working_env false) = None
   /\ altSetting_error (working_env false) = None
   /\ (2 <= interface_endpoints (working_env false))%nat
   /\ serial_reply (working_env false) = inr "TM-00-04")
  /\ exists s0 s1 s2,
      init (working_env false) fresh_world = [s0; s1; s2]
      /\ s_init s1 = Pending
      /\ s_init s2 = Fulfilled (ready_transport (working_env false)
                                                sample_tessel "TM-00-04")
      /\ s_emitted s2 = [Debug "Connected to device TM-00-04," None].
Proof.
  assert (H1 : getFirstDevice (deviceList (working_env false))
               = Normal (Some sample_tessel)) by reflexivity.
  assert (H2 : open_error (working_env false) = None) by reflexivity.
  assert (H3 : claim_error (working_env false) = None) by reflexivity.
  assert (H4 : altSetting_error (working_env false) = None) by reflexivity.
  assert (H5 : (2 <= interface_endpoints (working_env false))%nat)
    by (simpl; lia).
  assert (H6 : serial_reply (working_env false) = inr "TM-00-04")
    by reflexivity.
  split; [exact (conj H1 (conj H2 (conj H3 (conj H4 (conj H5 H6)))))|].
  destruct (X6_init_ready (working_env false) fresh_world sample_tessel
              "TM-00-04" H1 H2 H3 H4 H5 H6)
    as (s0 & s1 & s2 & Hinit & _ & Hs1 & _ & Hs2 & _ & _ & Hem & _).
  exists s0, s1, s2. repeat split; assumption.
Defined.

(** ** init(): when it does not come up *)

Lemma getFirstDevice_defined (deviceList : list Device) :
  getFirstDevice deviceList <> Normal None.
Proof.
  rewrite getFirstDevice_head. destruct (getDevices deviceList); discriminate.
Qed.

Lemma settle_not_pending (s : Session) :
  s_init s <> Pending -> s_init (settle s) = s_init s.
Proof.
  intros Hp. unfold settle.
  destruct (s_all s); cbn [s_init]; try reflexivity.
  destruct (Promise_all2 _ _ _) as [|[serial u]|e]; cbn [s_init];
    destruct (s_init s); try reflexivity; contradiction.
Qed.

Lemma on_serial_not_pending (env : UsbEnv) (s : Session) :
  s_init s <> Pending -> s_init (on_serial env s) = s_init s.
Proof. intros Hp. unfold on_serial. rewrite settle_not_pending; auto. Qed.

Lemma on_altSetting_not_pending (env : UsbEnv) (s : Session) :
  s_init s <> Pending -> s_init (on_altSetting env s) = s_init s.
Proof. intros Hp. unfold on_altSetting. rewrite settle_not_pending; auto. Qed.

(** Whatever the promise of [init] is when its executor returns, if it is
    settled then it is what every session shows. *)
Lemma init_settled_early (env : UsbEnv) (w : World) :
  promise (new_Promise (init_executor env) w) <> Pending ->
  Forall (fun s => s_init s = promise (new_Promise (init_executor env) w))
         (init env w).
Proof.
  intros Hp. unfold init.
  destruct (value (new_Promise (init_executor env) w)) as [[[ps pi]|]|e].
  - set (s := mkSession _ ps pi Pending _ [] []).
    assert (H0 : s_init (settle s) = promise (new_Promise (init_executor env) w))
      by (rewrite settle_not_pending; [reflexivity | exact Hp]).
    destruct (serial_first env).
    + assert (H1 : s_init (on_serial env (settle s)) = s_init (settle s))
        by (apply on_serial_not_pending; rewrite H0; exact Hp).
      assert (H2 : s_init (on_altSetting env (on_serial env (settle s)))
                   = s_init (on_serial env (settle s)))
        by (apply on_altSetting_not_pending; rewrite H1, H0; exact Hp).
      repeat constructor; congruence.
    + assert (H1 : s_init (on_altSetting env (settle s)) = s_init (settle s))
        by (apply on_altSetting_not_pending; rewrite H0; exact Hp).
      assert (H2 : s_init (on_serial env (on_altSetting env (settle s)))
                   = s_init (on_altSetting env (settle s)))
        by (apply on_serial_not_pending; rewrite H1, H0; exact Hp).
      repeat constructor; congruence.
  - repeat constructor.
  - repeat constructor.
Qed.

(** No device: the executor rejects with the error of [getFirstDevice],
    whatever happens to it afterwards. *)
Lemma init_executor_no_device (env : UsbEnv) (w : World) (e : JsError) :
  getFirstDevice (deviceList env) = Throw e ->
  promise (new_Promise (init_executor env) w) = Rejected e.
Proof.
  intros Hget. unfold new_Promise at 1. unfold init_executor, then_ at 1, try_catch.
  rewrite Hget.
  cbv [then_ set_this usb ret get_this throw do_reject reject usb_throwing
       world promise value this _device calls deviceSerial _endpoints
       _interface].
  destruct w as [[dev ser eps ifc] cs]. destruct dev as [dev|]; [|reflexivity].
  destruct (open_error env); reflexivity.
Qed.

Lemma init_executor_open_fails (env : UsbEnv) (w : World) (d : Device)
      (e : JsError) :
  getFirstDevice (deviceList env) = Normal (Some d) ->
  open_error env = Some e ->
  new_Promise (init_executor env) w
  = mkRan (mkWorld (mkTransport (Some d) (deviceSerial (this w))
                                (_endpoints (this w)) (_interface (this w)))
                   (calls w ++ [device_open]))
          (Rejected e) (Throw e).
Proof.
  intros Hget Hopen. unfold new_Promise at 1.
  unfold init_executor, then_ at 1, try_catch.
  rewrite Hget. unfold usb_throwing. rewrite Hopen. reflexivity.
Qed.

(** X7: no device, no session.  When no attached device passes the filter,
    the promise of [init] is rejected with "No Tessel devices found" and
    never changes; on a transport that holds no device nothing at all is
    called into the usb binding (the code runs on into [open] of a missing
    device, and the promise constructor swallows that exception). *)
Theorem X7_init_no_device (env : UsbEnv) (w : World) :
  getDevices (deviceList env) = [] ->
  init env w <> []
  /\ Forall (fun s => s_init s = Rejected DeviceNotFound) (init env w)
  /\ (_device (this w) = None ->
      init env w
      = [mkSession w Pending Pending Pending (Rejected DeviceNotFound) [] []]).
Proof.
  intros Hnone.
  assert (Hget : getFirstDevice (deviceList env) = Throw DeviceNotFound)
    by (rewrite getFirstDevice_head, Hnone; reflexivity).
  pose proof (init_executor_no_device env w _ Hget) as Hp.
  split; [|split].
  - unfold init. destruct (value _) as [[[ps pi]|]|e]; discriminate.
  - pose proof (init_settled_early env w) as Hall. rewrite Hp in Hall.
    apply Hall. discriminate.
  - intros Hdev. unfold init, new_Promise at 1 2 3.
    unfold init_executor, then_ at 1 2 3, try_catch. rewrite Hget.
    destruct w as [[dev ser eps ifc] cs]. cbn [this _device] in Hdev. subst dev.
    reflexivity.
Qed.

Lemma X7_init_no_device_witness :
  getDevices (deviceList deserted_env) = []
  /\ init deserted_env fresh_world
     = [mkSession fresh_world Pending Pending Pending
                  (Rejected (new_Error "No Tessel devices found")) [] []].
Proof.
  assert (H : getDevices (deviceList deserted_env) = []) by reflexivity.
  split; [exact H|].
  destruct (X7_init_no_device _ fresh_world H) as (_ & _ & Hfresh).
  apply Hfresh. reflexivity.
Defined.

(** X8: a device that does not open.  When [open()] throws, the promise of
    [init] is rejected with that very error; the transport holds the device,
    [open] is the only call made, and neither the serial number is asked
    for nor the interface touched. *)
Theorem X8_init_open_fails (env : UsbEnv) (w : World) (d : Device)
        (e : JsError) :
  getFirstDevice (deviceList env) = Normal (Some d) ->
  open_error env = Some e ->
  init env w
  = [mkSession
       (mkWorld (mkTransport (Some d) (deviceSerial (this w))
                             (_endpoints (this w)) (_interface (this w)))
                (calls w ++ [device_open]))
       Pending Pending Pending (Rejected e) [] []].
Proof.
  intros Hget Hopen. unfold init.
  rewrite (init_executor_open_fails env w d e Hget Hopen). reflexivity.
Qed.

Lemma X8_init_open_fails_witness :
  (getFirstDevice (deviceList locked_env) = Normal (Some sample_tessel)
   /\ open_error locked_env = Some LIBUSB_ERROR_ACCESS)
  /\ init locked_env fresh_world
     = [mkSession
          (mkWorld (mkTransport (Some sample_tessel) None
                                (mkEndpoints None None None) None)
                   [device_open])
          Pending Pending Pending (Rejected LIBUSB_ERROR_ACCESS) [] []].
Proof.
  split; [split; reflexivity|].
  apply (X8_init_open_fails locked_env fresh_world sample_tessel
                            LIBUSB_ERROR_ACCESS); reflexivity.
Defined.

Lemma not_ready_rejected (s : Session) (e : JsError) :
  s_init s = Rejected e -> ~ Ready s.
Proof. intros H [t Ht]. congruence. Qed.

Lemma not_ready_pending (s : Session) : s_init s = Pending -> ~ Ready s.
Proof. intros H [t Ht]. congruence. Qed.

(** With the interface claimed, what the three sessions of [init] are is a
    matter of the two callbacks only. *)
Lemma init_claimed_not_ready (env : UsbEnv) (w : World) (d : Device) :
  getFirstDevice (deviceList env) = Normal (Some d) ->
  open_error env = None ->
  claim_error env = None ->
  altSetting_error env <> None
  \/ (exists e, serial_reply env = inl e)
  \/ (interface_endpoints env < 2)%nat ->
  Forall (fun s => ~ Ready s) (init env w).
Proof.
  intros Hget Hopen Hclaim Hbad.
  rewrite (init_started env w d Hget Hopen Hclaim). cbv zeta.
  assert (Hcases :
            (interface_endpoints env = 0 \/ interface_endpoints env = 1
             \/ 2 <= interface_endpoints env)%nat) by lia.
  destruct (serial_first env), (altSetting_error env) as [ea|] eqn:Halt,
    (serial_reply env) as [es|serial] eqn:Hserial;
    destruct Hcases as [Hn|[Hn|Hn]];
    unfold on_serial, on_altSetting;
    cbn [s_world s_serial s_interface s_all s_init s_emitted s_uncaught];
    rewrite ?serial_callback_run, ?Hserial, ?Halt;
    rewrite ?(interface_callback_run env _ _ _ Hn),
      ?(interface_callback_no_log env _ _ _ Hn),
      ?(interface_callback_no_messagesIn env _ _ _ Hn);
    cbn [world promise value uncaught resolve reject settle Promise_all2
         s_world s_serial s_interface s_all s_init s_emitted s_uncaught app
         this calls _device deviceSerial _endpoints _interface];
    rewrite ?serial_callback_run, ?Hserial, ?Halt;
    rewrite ?(interface_callback_run env _ _ _ Hn),
      ?(interface_callback_no_log env _ _ _ Hn),
      ?(interface_callback_no_messagesIn env _ _ _ Hn);
    cbn [world promise value uncaught resolve reject settle Promise_all2
         s_world s_serial s_interface s_all s_init s_emitted s_uncaught app
         this calls _device deviceSerial _endpoints _interface];
    try (repeat constructor;
         first [ eapply not_ready_rejected; reflexivity
               | apply not_ready_pending; reflexivity ]).
  all: exfalso; destruct Hbad as [Hb|[[e Hb]|Hb]];
    [congruence | discriminate | lia].
Qed.

(** X9: [init] comes up only if everything worked.  If in some session the
    promise of [init] is fulfilled, then a device passed the filter, it
    opened, the interface was claimed, the alternate setting was selected
    without error, the interface had at least the log and messages-in
    endpoints, and the serial number was read: any one failure keeps the
    transport from ever being ready. *)
Theorem X9_init_ready_only_if (env : UsbEnv) (w : World) (s : Session) :
  In s (init env w) ->
  Ready s ->
  (exists d, getFirstDevice (deviceList env) = Normal (Some d))
  /\ open_error env = None
  /\ claim_error env = None
  /\ altSetting_error env = None
  /\ (exists serial, serial_reply env = inr serial)
  /\ (2 <= interface_endpoints env)%nat.
Proof.
  intros Hin Hready.
  assert (Hnever : Forall (fun s => ~ Ready s) (init env w) -> False)
    by (intros Hall; rewrite Forall_forall in Hall; exact (Hall s Hin Hready)).
  assert (Hearly : forall e, promise (new_Promise (init_executor env) w)
                             = Rejected e -> False).
  { intros e He. apply Hnever.
    pose proof (init_settled_early env w) as Hall. rewrite He in Hall.
    specialize (Hall ltac:(discriminate)).
    revert Hall. apply Forall_impl. intros s' Hs'.
    exact (not_ready_rejected s' e Hs'). }
  destruct (getFirstDevice (deviceList env)) as [[d|]|e] eqn:Hget.
  - destruct (open_error env) as [e|] eqn:Hopen.
    { exfalso. apply (Hearly e).
      rewrite (init_executor_open_fails env w d e Hget Hopen). reflexivity. }
    destruct (claim_error env) as [e|] eqn:Hclaim.
    { exfalso. apply Hnever.
      destruct (init_claim_fails env w d e Hget Hopen Hclaim)
        as (s0 & s1 & s2 & -> & Hall).
      revert Hall. apply Forall_impl. intros s' [Hs' _].
      exact (not_ready_rejected s' _ Hs'). }
    destruct (altSetting_error env) as [e|] eqn:Halt.
    { exfalso. apply Hnever.
      apply (init_claimed_not_ready env w d Hget Hopen Hclaim).
      left. rewrite Halt. discriminate. }
    destruct (serial_reply env) as [e|serial] eqn:Hserial.
    { exfalso. apply Hnever.
      apply (init_claimed_not_ready env w d Hget Hopen Hclaim).
      right. left. exists e. exact Hserial. }
    destruct (le_lt_dec 2 (interface_endpoints env)) as [Hn|Hn].
    2:{ exfalso. apply Hnever.
        apply (init_claimed_not_ready env w d Hget Hopen Hclaim).
        right. right. exact Hn. }
    repeat split; try reflexivity; try exact Hn; eexists; reflexivity.
  - exfalso. exact (getFirstDevice_defined _ Hget).
  - exfalso. apply (Hearly e). apply init_executor_no_device. exact Hget.
Qed.

Lemma X9_init_ready_only_if_witness :
  (In (nth 2 (init (working_env true) fresh_world) idle_session)
      (init (working_env true) fresh_world)
   /\ Ready (nth 2 (init (working_env true) fresh_world) idle_session))
  /\ claim_error (working_env true) = None
  /\ (2 <= interface_endpoints (working_env true))%nat.
Proof.
  assert (H1 : In (nth 2 (init (working_env true) fresh_world) idle_session)
                  (init (working_env true) fresh_world))
    by (apply nth_In; vm_compute; lia).
  assert (H2 : Ready (nth 2 (init (working_env true) fresh_world) idle_session))
    by (exists (ready_transport (working_env true) sample_tessel "TM-00-04");
        vm_compute; reflexivity).
  split; [exact (conj H1 H2)|].
  destruct (X9_init_ready_only_if (working_env true) fresh_world _ H1 H2)
    as (_ & _ & Hclaim & _ & _ & Hn).
  exact (conj Hclaim Hn).
Defined.

(** X10: an error of [setAltSetting] does not stop the set-up.  With the
    interface claimed and its endpoints there, an error reported by
    [setAltSetting] rejects the promise of [_getDeviceInterface] with that
    error, and the promise of [init] with it too unless the reading of the
    serial number has failed before; but the callback goes on after
    [reject]: the endpoints are bound and both streams are started all the
    same. *)
Theorem X10_init_altSetting_fails (env : UsbEnv) (w : World) (d : Device)
        (e : JsError) :
  getFirstDevice (deviceList env) = Normal (Some d) ->
  open_error env = None ->
  claim_error env = None ->
  altSetting_error env = Some e ->
  (2 <= interface_endpoints env)%nat ->
  exists s0 s1 s2,
    init env w = [s0; s1; s2]
    /\ s_interface s2 = Rejected e
    /\ s_init s2
       = Rejected (match serial_reply env with
                   | inl es => if serial_first env then es else e
                   | inr _ => e
                   end)
    /\ _endpoints (this (s_world s2))
       = mkEndpoints (Some 0%nat) (Some 1%nat) (endpoint_of env 2)
    /\ calls (s_world s2) = calls w ++ setup_calls d ++ stream_calls
    /\ s_uncaught s2 = [].
Proof.
  intros Hget Hopen Hclaim Halt Hn.
  rewrite (init_started env w d Hget Hopen Hclaim). cbv zeta.
  do 3 eexists. split; [reflexivity|].
  destruct (serial_first env), (serial_reply env) as [es|serial] eqn:Hserial;
    unfold on_serial, on_altSetting;
    cbn [s_world s_serial s_interface s_all s_init s_emitted s_uncaught];
    rewrite ?serial_callback_run, ?Hserial, ?Halt;
    rewrite ?(interface_callback_run env _ _ _ Hn);
    cbn [world promise value uncaught resolve reject settle Promise_all2
         s_world s_serial s_interface s_all s_init s_emitted s_uncaught app
         this calls _device deviceSerial _endpoints _interface];
    rewrite ?serial_callback_run, ?Hserial, ?Halt;
    rewrite ?(interface_callback_run env _ _ _ Hn);
    cbn [world promise value uncaught resolve reject settle Promise_all2
         s_world s_serial s_interface s_all s_init s_emitted s_uncaught app
         this calls _device deviceSerial _endpoints _interface];
    unfold stream_calls, TRANSFER_SIZE;
    repeat split; rewrite <- ?app_assoc; reflexivity.
Qed.

(** X11: a serial number that cannot be read.  With the interface set up
    without error, an error from [getStringDescriptor] rejects the promise of
    [init] with that error, in whichever order the callbacks come; the serial
    number of the transport is left as it was, while the interface is held,
    the endpoints are bound and both streams run. *)
Theorem X11_init_serial_fails (env : UsbEnv) (w : World) (d : Device)
        (e : JsError) :
  getFirstDevice (deviceList env) = Normal (Some d) ->
  open_error env = None ->
  claim_error env = None ->
  altSetting_error env = None ->
  (2 <= interface_endpoints env)%nat ->
  serial_reply env = inl e ->
  exists s0 s1 s2,
    init env w = [s0; s1; s2]
    /\ s_init s2 = Rejected e
    /\ s_interface s2 = Fulfilled tt
    /\ this (s_world s2)
       = mkTransport (Some d) (deviceSerial (this w))
                     (mkEndpoints (Some 0%nat) (Some 1%nat) (endpoint_of env 2))
                     (Some (mkInterface 0))
    /\ calls (s_world s2) = calls w ++ setup_calls d ++ stream_calls
    /\ s_emitted s2 = [].
Proof.
  intros Hget Hopen Hclaim Halt Hn Hserial.
  rewrite (init_started env w d Hget Hopen Hclaim). cbv zeta.
  do 3 eexists. split; [reflexivity|].
  destruct (serial_first env);
    unfold on_serial, on_altSetting;
    cbn [s_world s_serial s_interface s_all s_init s_emitted s_uncaught];
    rewrite ?serial_callback_run, ?Hserial, ?Halt;
    rewrite ?(interface_callback_run env _ _ _ Hn);
    cbn [world promise value uncaught resolve reject settle Promise_all2
         s_world s_serial s_interface s_all s_init s_emitted s_uncaught app
         this calls _device deviceSerial _endpoints _interface];
    rewrite ?serial_callback_run, ?Hserial, ?Halt;
    rewrite ?(interface_callback_run env _ _ _ Hn);
    cbn [world promise value uncaught resolve reject settle Promise_all2
         s_world s_serial s_interface s_all s_init s_emitted s_uncaught app
         this calls _device deviceSerial _endpoints _interface];
    unfold stream_calls, TRANSFER_SIZE;
    repeat split; rewrite <- ?app_assoc; reflexivity.
Qed.

(** X12: an interface without its endpoints leaves [init] hanging.  When
    nothing reports an error but the interface has no log endpoint, the
    callback of [setAltSetting] throws a TypeError on starting the log
    stream; the exception reaches the event loop, [resolve] is never called,
    and the promise of [init] stays pending for good: neither fulfilled nor
    rejected. *)
Theorem X12_init_hangs_without_endpoints (env : UsbEnv) (w : World)
        (d : Device) (serial : string) :
  getFirstDevice (deviceList env) = Normal (Some d) ->
  open_error env = None ->
  claim_error env = None ->
  altSetting_error env = None ->
  interface_endpoints env = 0%nat ->
  serial_reply env = inr serial ->
  exists s0 s1 s2,
    init env w = [s0; s1; s2]
    /\ Forall (fun s => s_init s = Pending) [s0; s1; s2]
    /\ s_interface s2 = Pending
    /\ (exists msg, s_uncaught s2 = [mkError TypeError msg])
    /\ calls (s_world s2) = calls w ++ setup_calls d.
Proof.
  intros Hget Hopen Hclaim Halt Hn Hserial.
  rewrite (init_started env w d Hget Hopen Hclaim). cbv zeta.
  do 3 eexists. split; [reflexivity|].
  destruct (serial_first env);
    unfold on_serial, on_altSetting;
    cbn [s_world s_serial s_interface s_all s_init s_emitted s_uncaught];
    rewrite ?serial_callback_run, ?Hserial, ?Halt;
    rewrite ?(interface_callback_no_log env _ _ _ Hn);
    cbn [world promise value uncaught resolve reject settle Promise_all2
         s_world s_serial s_interface s_all s_init s_emitted s_uncaught app
         this calls _device deviceSerial _endpoints _interface];
    rewrite ?serial_callback_run, ?Hserial, ?Halt;
    rewrite ?(interface_callback_no_log env _ _ _ Hn);
    cbn [world promise value uncaught resolve reject settle Promise_all2
         s_world s_serial s_interface s_all s_init s_emitted s_uncaught app
         this calls _device deviceSerial _endpoints _interface];
    (split; [repeat constructor|]); (split; [reflexivity|]);
    (split; [eexists; reflexivity | reflexivity]).
Qed.

(** X13: a session from [init] to [close].  After an [init] that came up,
    [close()] calls [release(true, ...)] and then [close()] on the device,
    whatever [release] reports, and its promise is fulfilled; the transport
    keeps its device, serial number and endpoints and has no interface any
    more. *)
Theorem X13_init_then_close (env : UsbEnv) (w : World) (d : Device)
        (serial : string) (err : option JsError) :
  getFirstDevice (deviceList env) = Normal (Some d) ->
  open_error env = None ->
  claim_error env = None ->
  altSetting_error env = None ->
  (2 <= interface_endpoints env)%nat ->
  serial_reply env = inr serial ->
  exists s0 s1 s2,
    init env w = [s0; s1; s2]
    /\ close err (s_world s2)
       = mkClosing
           (mkWorld
              (mkTransport (Some d) (Some serial)
                 (mkEndpoints (Some 0%nat) (Some 1%nat) (endpoint_of env 2))
                 None)
              (calls w ++ setup_calls d ++ stream_calls
               ++ [interface_release true; device_close]))
           (Fulfilled tt) [].
Proof.
  intros Hget Hopen Hclaim Halt Hn Hserial.
  destruct (init_comes_up env w d serial Hget Hopen Hclaim Halt Hn Hserial)
    as (s0 & s1 & s2 & Hinit & _ & _ & _ & _ & Hthis & Hcalls & _).
  exists s0, s1, s2. split; [exact Hinit|].
  rewrite (close_with_interface err (s_world s2) (mkInterface 0))
    by (rewrite Hthis; reflexivity).
  rewrite Hthis, Hcalls. cbn [ready_transport _device deviceSerial _endpoints truthy].
  rewrite <- !app_assoc. reflexivity.
Qed.

Lemma X10_init_altSetting_fails_witness :
  (getFirstDevice (deviceList altfail_env) = Normal (Some sample_tessel)
   /\ open_error altfail_env = None
   /\ claim_error altfail_env = None
   /\ altSetting_error altfail_env = Some LIBUSB_ERROR_IO
   /\ (2 <= interface_endpoints altfail_env)%nat)
  /\ exists s0 s1 s2,
      init altfail_env fresh_world = [s0; s1; s2]
      /\ s_init s2 = Rejected LIBUSB_ERROR_IO
      /\ calls (s_world s2) = setup_calls sample_tessel ++ stream_calls.
Proof.
  assert (H1 : getFirstDevice (deviceList altfail_env)
               = Normal (Some sample_tessel)) by reflexivity.
  assert (H2 : open_error altfail_env = None) by reflexivity.
  assert (H3 : claim_error altfail_env = None) by reflexivity.
  assert (H4 : altSetting_error altfail_env = Some LIBUSB_ERROR_IO)
    by reflexivity.
  assert (H5 : (2 <= interface_endpoints altfail_env)%nat) by (simpl; lia).
  split; [exact (conj H1 (conj H2 (conj H3 (conj H4 H5))))|].
  destruct (X10_init_altSetting_fails altfail_env fresh_world sample_tessel
              LIBUSB_ERROR_IO H1 H2 H3 H4 H5)
    as (s0 & s1 & s2 & Hinit & _ & Hs2 & _ & Hcalls & _).
  exists s0, s1, s2. split; [exact Hinit|]. split; [exact Hs2 | exact Hcalls].
Defined.

Lemma X11_init_serial_fails_witness :
  (getFirstDevice (deviceList serialfail_env) = Normal (Some sample_tessel)
   /\ open_error serialfail_env = None
   /\ claim_error serialfail_env = None
   /\ altSetting_error serialfail_env = None
   /\ (2 <= interface_endpoints serialfail_env)%nat
   /\ serial_reply serialfail_env = inl LIBUSB_ERROR_IO)
  /\ exists s0 s1 s2,
      init serialfail_env fresh_world = [s0; s1; s2]
      /\ s_init s2 = Rejected LIBUSB_ERROR_IO
      /\ deviceSerial (this (s_world s2)) = None
      /\ calls (s_world s2) = setup_calls sample_tessel ++ stream_calls.
Proof.
  assert (H1 : getFirstDevice (deviceList serialfail_env)
               = Normal (Some sample_tessel)) by reflexivity.
  assert (H2 : open_error serialfail_env = None) by reflexivity.
  assert (H3 : claim_error serialfail_env = None) by reflexivity.
  assert (H4 : altSetting_error serialfail_env = None) by reflexivity.
  assert (H5 : (2 <= interface_endpoints serialfail_env)%nat) by (simpl; lia).
  assert (H6 : serial_reply serialfail_env = inl LIBUSB_ERROR_IO)
    by reflexivity.
  split; [exact (conj H1 (conj H2 (conj H3 (conj H4 (conj H5 H6)))))|].
  destruct (X11_init_serial_fails serialfail_env fresh_world sample_tessel
              LIBUSB_ERROR_IO H1 H2 H3 H4 H5 H6)
    as (s0 & s1 & s2 & Hinit & Hs2 & _ & Hthis & Hcalls & _).
  exists s0, s1, s2. split; [exact Hinit|]. split; [exact Hs2|].
  split; [rewrite Hthis; reflexivity | exact Hcalls].
Defined.

Lemma X12_init_hangs_without_endpoints_witness :
  (getFirstDevice (deviceList bare_env) = Normal (Some sample_tessel)
   /\ open_error bare_env = None
   /\ claim_error bare_env = None
   /\ altSetting_error bare_env = None
   /\ interface_endpoints bare_env = 0%nat
   /\ serial_reply bare_env = inr "TM-00-04")
  /\ exists s0 s1 s2,
      init bare_env fresh_world = [s0; s1; s2]
      /\ s_init s2 = Pending
      /\ exists msg, s_uncaught s2 = [mkError TypeError msg].
Proof.
  assert (H1 : getFirstDevice (deviceList bare_env)
               = Normal (Some sample_tessel)) by reflexivity.
  assert (H2 : open_error bare_env = None) by reflexivity.
  assert (H3 : claim_error bare_env = None) by reflexivity.
  assert (H4 : altSetting_error bare_env = None) by reflexivity.
  assert (H5 : interface_endpoints bare_env = 0%nat) by reflexivity.
  assert (H6 : serial_reply bare_env = inr "TM-00-04") by reflexivity.
  split; [exact (conj H1 (conj H2 (conj H3 (conj H4 (conj H5 H6)))))|].
  destruct (X12_init_hangs_without_endpoints bare_env fresh_world sample_tessel
              "TM-00-04" H1 H2 H3 H4 H5 H6)
    as (s0 & s1 & s2 & Hinit & Hall & _ & Hun & _).
  exists s0, s1, s2. split; [exact Hinit|]. split; [|exact Hun].
  inversion Hall as [|? ? _ Hrest]; subst.
  inversion Hrest as [|? ? _ Hrest']; subst.
  inversion Hrest' as [|? ? Hp _]; subst. exact Hp.
Defined.

Lemma X13_init_then_close_witness :
  (getFirstDevice (deviceList (working_env true)) = Normal (Some sample_tessel)
   /\ open_error (working_env true) = None
   /\ claim_error (working_env true) = None
   /\ altSetting_error (working_env true) = None
   /\ (2 <= interface_endpoints (working_env true))%nat
   /\ serial_reply (working_env true) = inr "TM-00-04")
  /\ exists s0 s1 s2,
      init (working_env true) fresh_world = [s0; s1; s2]
      /\ c_promise (close (Some LIBUSB_ERROR_IO) (s_world s2)) = Fulfilled tt
      /\ calls (c_world (close (Some LIBUSB_ERROR_IO) (s_world s2)))
         = [device_open; device_timeout 10000; device_getStringDescriptor 3;
            interface_claim; interface_setAltSetting 1;
            endpoint_startStream 0 4 4096; endpoint_startStream 1 2 4096;
            interface_release true; device_close].
Proof.
  assert (H1 : getFirstDevice (deviceList (working_env true))
               = Normal (Some sample_tessel)) by reflexivity.
  assert (H2 : open_error (working_env true) = None) by reflexivity.
  assert (H3 : claim_error (working_env true) = None) by reflexivity.
  assert (H4 : altSetting_error (working_env true) = None) by reflexivity.
  assert (H5 : (2 <= interface_endpoints (working_env true))%nat)
    by (simpl; lia).
  assert (H6 : serial_reply (working_env true) = inr "TM-00-04")
    by reflexivity.
  split; [exact (conj H1 (conj H2 (conj H3 (conj H4 (conj H5 H6)))))|].
  destruct (X13_init_then_close (working_env true) fresh_world sample_tessel
              "TM-00-04" (Some LIBUSB_ERROR_IO) H1 H2 H3 H4 H5 H6)
    as (s0 & s1 & s2 & Hinit & Hclose).
  exists s0, s1, s2. split; [exact Hinit|]. rewrite Hclose.
  split; reflexivity.
Defined.

(** ** send *)

(** [_controlTransfer] on a transport with and without a device. *)
Lemma Transport_controlTransfer_device (t : USBTransport) (d : Device)
      (direction : option Z) (tag : Z) (data : option Buffer)
      (err : option JsError) (reply : option Buffer) :
  _device t = Some d ->
  Transport._controlTransfer t direction tag data err reply
  = Transport.mkTransferring
      (Some (d, mkControlled direction tag 0 0 data
                  (match err with
                   | Some e => Rejected e
                   | None => Fulfilled reply
                   end)))
      (match err with
       | Some e => Rejected e
       | None => Fulfilled reply
       end).
Proof.
  intros Hd. unfold Transport._controlTransfer. rewrite Hd.
  unfold _controlTransfer. destruct err; reflexivity.
Qed.

Lemma Transport_controlTransfer_no_device (t : USBTransport)
      (direction : option Z) (tag : Z) (data : option Buffer)
      (err : option JsError) (reply : option Buffer) :
  _device t = None ->
  Transport._controlTransfer t direction tag data err reply
  = Transport.mkTransferring None (Rejected (null_property "controlTransfer")).
Proof.
  intros Hd. unfold Transport._controlTransfer. rewrite Hd. reflexivity.
Qed.

(** X14: how [send] picks the way a tag travels, on any transport.  A tag
    equal to TAG_RUN or TAG_FLASH goes through [_postMessage] (also when
    TAG_KILL has the same value: the later entries of the table overwrite
    the earlier one).  TAG_KILL otherwise goes through [_controlTransfer]:
    on a transport that holds a device, a control transfer on that device
    with request type 0x40 (vendor, device, host to device), the tag as
    request, value and index 0 and the data as they are, its promise
    rejected with the error of the transfer or fulfilled with the reply; on
    a transport without a device no transfer is made and the promise is
    rejected with a TypeError.  Any other tag makes [send] throw a TypeError
    before anything is sent. *)
Theorem X14_send_dispatch (TAG_KILL TAG_FLASH TAG_RUN : Z) (t : USBTransport)
        (mem : Buffer) (tag : Z) (data : option Buffer) (err : option JsError)
        (reply : option Buffer) :
  (tag = TAG_RUN \/ tag = TAG_FLASH ->
   Transport.send TAG_KILL TAG_FLASH TAG_RUN t mem tag data err reply
   = match Transport._postMessage t mem tag data err with
     | Normal s => Normal (Transport.Posting s)
     | Throw e => Throw e
     end)
  /\ (tag = TAG_KILL -> tag <> TAG_RUN -> tag <> TAG_FLASH ->
      (forall d, _device t = Some d ->
         Transport.send TAG_KILL TAG_FLASH TAG_RUN t mem tag data err reply
         = Normal (Transport.Controlling
                     (Transport.mkTransferring
                        (Some (d, mkControlled (Some 0x40) tag 0 0 data
                                    (match err with
                                     | Some e => Rejected e
                                     | None => Fulfilled reply
                                     end)))
                        (match err with
                         | Some e => Rejected e
                         | None => Fulfilled reply
                         end))))
      /\ (_device t = None ->
          exists msg,
            Transport.send TAG_KILL TAG_FLASH TAG_RUN t mem tag data err reply
            = Normal (Transport.Controlling
                        (Transport.mkTransferring
                           None (Rejected (mkError TypeError msg))))))
  /\ (tag <> TAG_RUN -> tag <> TAG_FLASH -> tag <> TAG_KILL ->
      exists msg,
        Transport.send TAG_KILL TAG_FLASH TAG_RUN t mem tag data err reply
        = Throw (mkError TypeError msg)).
Proof.
  split; [|split].
  - intros Htag. unfold Transport.send, TAG_METHOD_MAP.
    destruct Htag as [-> | ->].
    + rewrite Z.eqb_refl. reflexivity.
    + rewrite Z.eqb_refl. destruct (TAG_FLASH =? TAG_RUN); reflexivity.
  - intros Hkill Hrun Hflash.
    assert (Hsend : Transport.send TAG_KILL TAG_FLASH TAG_RUN t mem tag data
                                   err reply
                    = Normal (Transport.Controlling
                                (Transport._controlTransfer
                                   t (Some 0x40) tag data err reply))).
    { unfold Transport.send, TAG_METHOD_MAP.
      apply Z.eqb_neq in Hrun, Hflash. rewrite Hrun, Hflash.
      subst tag. rewrite Z.eqb_refl. reflexivity. }
    split.
    + intros d Hd. rewrite Hsend.
      rewrite (Transport_controlTransfer_device t d _ _ _ _ _ Hd).
      reflexivity.
    + intros Hd. rewrite Hsend.
      rewrite (Transport_controlTransfer_no_device t _ _ _ _ _ Hd).
      eexists. reflexivity.
  - intros Hrun Hflash Hkill. unfold Transport.send, TAG_METHOD_MAP.
    apply Z.eqb_neq in Hrun, Hflash, Hkill. rewrite Hrun, Hflash, Hkill.
    eexists. reflexivity.
Qed.

Lemma X14_send_dispatch_witness :
  Transport.send sample_TAG_KILL sample_TAG_FLASH sample_TAG_RUN
                 sample_transport [] sample_TAG_RUN
                 (Some (list_byte_of_string "hi")) None None
  = Normal (Transport.Posting
              (Transport.mkSending
                 (Some (2%nat, ["002"; "000"; "000"; "000";
                                "085"; "000"; "000"; "000";
                                "104"; "105"]%byte))
                 (Fulfilled tt)))
  /\ Transport.send sample_TAG_KILL sample_TAG_FLASH sample_TAG_RUN
                    sample_transport [] sample_TAG_KILL None None None
     = Normal (Transport.Controlling
                 (Transport.mkTransferring
                    (Some (sample_tessel,
                           mkControlled (Some 0x40) 0x10 0 0 None
                                        (Fulfilled None)))
                    (Fulfilled None)))
  /\ (exists msg,
        Transport.send sample_TAG_KILL sample_TAG_FLASH sample_TAG_RUN
                       new_USBTransport [] sample_TAG_KILL None None None
        = Normal (Transport.Controlling
                    (Transport.mkTransferring
                       None (Rejected (mkError TypeError msg)))))
  /\ (exists msg,
        Transport.send sample_TAG_KILL sample_TAG_FLASH sample_TAG_RUN
                       sample_transport [] 0x77 None None None
        = Throw (mkError TypeError msg)).
Proof.
  split; [|split; [|split]].
  - rewrite (proj1 (X14_send_dispatch sample_TAG_KILL sample_TAG_FLASH
                      sample_TAG_RUN sample_transport [] sample_TAG_RUN
                      (Some (list_byte_of_string "hi")) None None)
               (or_introl eq_refl)).
    vm_compute. reflexivity.
  - destruct (X14_send_dispatch sample_TAG_KILL sample_TAG_FLASH
                sample_TAG_RUN sample_transport [] sample_TAG_KILL
                None None None) as (_ & Hkill & _).
    destruct Hkill as [Hdev _]; [reflexivity | discriminate | discriminate |].
    exact (Hdev sample_tessel eq_refl).
  - destruct (X14_send_dispatch sample_TAG_KILL sample_TAG_FLASH
                sample_TAG_RUN new_USBTransport [] sample_TAG_KILL
                None None None) as (_ & Hkill & _).
    destruct Hkill as [_ Hnone]; [reflexivity | discriminate | discriminate |].
    exact (Hnone eq_refl).
  - destruct (X14_send_dispatch sample_TAG_KILL sample_TAG_FLASH
                sample_TAG_RUN sample_transport [] 0x77 None None None)
      as (_ & _ & Hother).
    apply Hother; discriminate.
Defined.

(** ** _postMessage in general *)

Lemma writeUInt32LE_refused (b : Buffer) (v : Z) (offset : nat) :
  v < 0 \/ 4294967295 < v ->
  writeUInt32LE b v offset = Throw out_of_bounds.
Proof.
  intros Hv. unfold writeUInt32LE.
  replace ((v <? 0) || (v >? 4294967295)) with true; [reflexivity|].
  symmetry. apply orb_true_iff. rewrite Z.gtb_ltb.
  destruct Hv; [left; apply Z.ltb_lt | right; apply Z.ltb_lt]; assumption.
Qed.

Lemma postMessage_no_data_any (mem : Buffer) (tag : Z) (data : option Buffer)
      (err : option JsError) :
  _postMessage mem tag data err
  = _postMessage mem tag
                 (Some match data with Some d => d | None => [] end) err.
Proof. destruct data; reflexivity. Qed.

Lemma postMessage_spec (mem : Buffer) (tag : Z) (data : option Buffer)
      (err : option JsError) :
  _postMessage mem tag data err
  = (let payload := match data with Some d => d | None => [] end in
     if (0 <=? tag) && (tag <=? 4294967295)
        && (Buffer_length payload <=? 4294967295)
     then Normal (mkPosted (frame_bytes tag payload)
                           (match err with
                            | Some e => Rejected e
                            | None => Fulfilled tt
                            end))
     else Throw out_of_bounds)
  /\ forall mem', _postMessage mem' tag data err = _postMessage mem tag data err.
Proof.
  assert (Hspec : forall mem0,
             _postMessage mem0 tag data err
             = (let payload := match data with Some d => d | None => [] end in
                if (0 <=? tag) && (tag <=? 4294967295)
                   && (Buffer_length payload <=? 4294967295)
                then Normal (mkPosted (frame_bytes tag payload)
                                      (match err with
                                       | Some e => Rejected e
                                       | None => Fulfilled tt
                                       end))
                else Throw out_of_bounds)).
  { intros mem0. rewrite postMessage_no_data_any.
    set (payload := match data with Some d => d | None => [] end). cbv zeta.
    destruct (Z_le_gt_dec (Buffer_length payload) 4294967295) as [Hl|Hl].
    - destruct (Z_lt_le_dec tag 0) as [Ht|Ht].
      { replace (0 <=? tag) with false by (symmetry; apply Z.leb_gt; lia).
        cbn [andb]. unfold _postMessage.
        destruct (new_Buffer_8 mem0)
          as (h0 & h1 & h2 & h3 & h4 & h5 & h6 & h7 & ->).
        rewrite writeUInt32LE_header_0
          by (unfold Buffer_length in *; change (2 ^ 32) with 4294967296; lia).
        cbn [bind]. rewrite writeUInt32LE_refused by (left; exact Ht).
        reflexivity. }
      destruct (Z_le_gt_dec tag 4294967295) as [Ht'|Ht'].
      + replace (0 <=? tag) with true by (symmetry; apply Z.leb_le; lia).
        replace (tag <=? 4294967295) with true by (symmetry; apply Z.leb_le; lia).
        replace (Buffer_length payload <=? 4294967295) with true
          by (symmetry; apply Z.leb_le; lia).
        cbn [andb]. apply postMessage_frame; change (2 ^ 32) with 4294967296; lia.
      + replace (tag <=? 4294967295) with false by (symmetry; apply Z.leb_gt; lia).
        rewrite andb_false_r. cbn [andb]. unfold _postMessage.
        destruct (new_Buffer_8 mem0)
          as (h0 & h1 & h2 & h3 & h4 & h5 & h6 & h7 & ->).
        rewrite writeUInt32LE_header_0
          by (unfold Buffer_length in *; change (2 ^ 32) with 4294967296; lia).
        cbn [bind]. rewrite writeUInt32LE_refused by (right; lia).
        reflexivity.
    - replace (Buffer_length payload <=? 4294967295) with false
        by (symmetry; apply Z.leb_gt; lia).
      rewrite andb_false_r. unfold _postMessage.
      rewrite writeUInt32LE_refused by (right; lia). reflexivity. }
  split; [apply Hspec|]. intros mem'. rewrite !Hspec. reflexivity.
Qed.

(** X15: what [_postMessage] does for every transport, every tag and every
    data.  If the tag or the length of the data is not an unsigned 32-bit
    number, writing the header throws and nothing is sent.  Otherwise, on a
    transport that has its messages-out endpoint, the frame (length, tag,
    data; an empty payload when there is no data) is given to that endpoint,
    and the promise is rejected with the error of the transfer or
    fulfilled; on a transport without that endpoint nothing is given to any
    endpoint and the promise is rejected with a TypeError, whatever [err]
    is.  In no case does the result depend on what the freshly allocated
    header held. *)
Theorem X15_postMessage_total (t : USBTransport) (mem : Buffer) (tag : Z)
        (data : option Buffer) (err : option JsError) :
  (0 <= tag <= 4294967295
   /\ Buffer_length (match data with Some d => d | None => [] end)
      <= 4294967295 ->
   (forall endpoint, messagesOut (_endpoints t) = Some endpoint ->
      Transport._postMessage t mem tag data err
      = Normal (Transport.mkSending
                  (Some (endpoint,
                         frame_bytes tag (match data with
                                          | Some d => d
                                          | None => []
                                          end)))
                  (match err with
                   | Some e => Rejected e
                   | None => Fulfilled tt
                   end)))
   /\ (messagesOut (_endpoints t) = None ->
       exists msg,
         Transport._postMessage t mem tag data err
         = Normal (Transport.mkSending
                     None (Rejected (mkError TypeError msg)))))
  /\ (~ (0 <= tag <= 4294967295
         /\ Buffer_length (match data with Some d => d | None => [] end)
            <= 4294967295) ->
      exists e, Transport._postMessage t mem tag data err = Throw e)
  /\ forall mem',
       Transport._postMessage t mem' tag data err
       = Transport._postMessage t mem tag data err.
Proof.
  destruct (postMessage_spec mem tag data err) as [Hspec Hmem].
  cbv zeta in Hspec. split; [|split].
  - intros [[Ht0 Ht1] Hl]. unfold Transport._postMessage. rewrite Hspec.
    apply Z.leb_le in Ht0, Ht1, Hl. rewrite Ht0, Ht1, Hl.
    cbn [andb bind outbound posted]. split.
    + intros endpoint ->. reflexivity.
    + intros ->. eexists. reflexivity.
  - intros Hout. unfold Transport._postMessage. rewrite Hspec.
    destruct ((0 <=? tag) && (tag <=? 4294967295)
              && (Buffer_length match data with Some d => d | None => [] end
                  <=? 4294967295)) eqn:E; [|eexists; reflexivity].
    exfalso. apply Hout.
    apply andb_prop in E as [E El]. apply andb_prop in E as [E0 E1].
    apply Z.leb_le in E0, E1, El. lia.
  - intros mem'. unfold Transport._postMessage. rewrite (Hmem mem').
    reflexivity.
Qed.

Lemma X15_postMessage_total_witness :
  Transport._postMessage sample_transport [] 0x50 None
                         (Some LIBUSB_ERROR_IO)
  = Normal (Transport.mkSending
              (Some (2%nat, ["000"; "000"; "000"; "000";
                             "080"; "000"; "000"; "000"]%byte))
              (Rejected LIBUSB_ERROR_IO))
  /\ (exists msg,
        Transport._postMessage new_USBTransport [] 0x50 None
                               (Some LIBUSB_ERROR_IO)
        = Normal (Transport.mkSending
                    None (Rejected (mkError TypeError msg))))
  /\ (exists e,
        Transport._postMessage sample_transport [] (-1) None None = Throw e).
Proof.
  split; [|split].
  - destruct (X15_postMessage_total sample_transport [] 0x50 None
                (Some LIBUSB_ERROR_IO)) as (Hin & _).
    destruct Hin as [Hsome _].
    { split; [split; discriminate | discriminate]. }
    rewrite (Hsome 2%nat eq_refl). vm_compute. reflexivity.
  - destruct (X15_postMessage_total new_USBTransport [] 0x50 None
                (Some LIBUSB_ERROR_IO)) as (Hin & _).
    destruct Hin as [_ Hnone].
    { split; [split; discriminate | discriminate]. }
    exact (Hnone eq_refl).
  - destruct (X15_postMessage_total sample_transport [] (-1) None None)
      as (_ & Hout & _).
    apply Hout. intros [[H0 _] _]. apply H0. reflexivity.
Defined.

(** ** The first candidate *)

(** X16: the first candidate is the first match in enumeration order.  If
    no device before [d] in the list of attached devices is a running
    Tessel and [d] is one, [getFirstDevice] returns [d], whatever comes
    after it. *)
Theorem X16_first_candidate_in_order (pre post : list Device) (d : Device) :
  Forall descriptor_ok (pre ++ d :: post) ->
  (forall x, In x pre -> tessel_running x = false) ->
  tessel_running d = true ->
  getFirstDevice (pre ++ d :: post) = Normal (Some d).
Proof.
  intros Hok Hpre Hd.
  rewrite getFirstDevice_head, (getDevices_filter _ Hok), filter_app.
  replace (filter tessel_running pre) with (@nil Device).
  - cbn [app filter]. rewrite Hd. reflexivity.
  - symmetry. clear Hok. induction pre as [|x pre IH]; [reflexivity|].
    cbn [filter]. rewrite (Hpre x) by (left; reflexivity).
    apply IH. intros y Hy. apply Hpre. right. exact Hy.
Qed.

Lemma X16_first_candidate_in_order_witness :
  (Forall descriptor_ok
          ([sample_other; sample_bootloader]
           ++ sample_tessel :: [sample_bootloader; sample_tessel])
   /\ (forall x, In x [sample_other; sample_bootloader] ->
                 tessel_running x = false)
   /\ tessel_running sample_tessel = true)
  /\ getFirstDevice ([sample_other; sample_bootloader]
                     ++ sample_tessel :: [sample_bootloader; sample_tessel])
     = Normal (Some sample_tessel).
Proof.
  assert (H1 : Forall descriptor_ok
                 ([sample_other; sample_bootloader]
                  ++ sample_tessel :: [sample_bootloader; sample_tessel])).
  { repeat constructor; unfold uint16; simpl; lia. }
  assert (H2 : forall x, In x [sample_other; sample_bootloader] ->
                         tessel_running x = false).
  { intros x [<-|[<-|[]]]; reflexivity. }
  assert (H3 : tessel_running sample_tessel = true) by reflexivity.
  split; [exact (conj H1 (conj H2 H3))|].
  exact (X16_first_candidate_in_order _ _ sample_tessel H1 H2 H3).
Defined.

(** ** close() after an init() that failed at the claim *)

Lemma settle_world (s : Session) : s_world (settle s) = s_world s.
Proof.
  unfold settle. destruct (s_all s); try reflexivity.
  destruct (Promise_all2 _ _ _) as [|[serial u]|e]; reflexivity.
Qed.

Lemma on_serial_holds (env : UsbEnv) (s : Session) (d : Device) :
  holds d (s_world s) -> holds d (s_world (on_serial env s)).
Proof.
  unfold holds, on_serial. rewrite settle_world. cbn [s_world].
  rewrite serial_callback_run. destruct (serial_reply env); cbn; tauto.
Qed.

Lemma on_altSetting_holds (env : UsbEnv) (s : Session) (d : Device) :
  holds d (s_world s) -> holds d (s_world (on_altSetting env s)).
Proof.
  unfold holds, on_altSetting. rewrite settle_world. cbn [s_world].
  unfold interface_callback, _initEndpoints, _initLogEndpoint,
    _initMessageInEndpoint, _initMessageOutEndpoint.
  destruct (altSetting_error env), (endpoint_of env 0), (endpoint_of env 1);
    cbn; tauto.
Qed.

(** Once the device is open, every session of [init] holds the device and
    the interface object, whether or not the claim went through. *)
Lemma init_holds (env : UsbEnv) (w : World) (d : Device) :
  getFirstDevice (deviceList env) = Normal (Some d) ->
  open_error env = None ->
  Forall (fun s => holds d (s_world s)) (init env w).
Proof.
  intros Hget Hopen. unfold init.
  rewrite (init_executor_run env w d Hget Hopen). cbv [value world promise].
  set (s := mkSession _ _ _ _ _ _ _).
  assert (H0 : holds d (s_world (settle s)))
    by (rewrite settle_world; split; reflexivity).
  destruct (serial_first env).
  - pose proof (on_serial_holds env _ d H0) as H1.
    pose proof (on_altSetting_holds env _ d H1) as H2.
    constructor; [exact H0|]. constructor; [exact H1|].
    constructor; [exact H2 | constructor].
  - pose proof (on_altSetting_holds env _ d H0) as H1.
    pose proof (on_serial_holds env _ d H1) as H2.
    constructor; [exact H0|]. constructor; [exact H1|].
    constructor; [exact H2 | constructor].
Qed.

(** X17: an interface that could not be claimed is released all the same.
    [_getDeviceInterface] stores the interface object before it calls
    [claim()], so after an [init] that failed at the claim the transport
    holds the device and the interface; [close()] then does not resolve at
    once: it calls [release(true, ...)] on the interface that was never
    claimed and [close()] on the device, and its promise is fulfilled
    whatever [release] reports. *)
Theorem X17_close_after_failed_claim (env : UsbEnv) (w : World) (d : Device)
        (e : JsError) (err : option JsError) (s : Session) :
  getFirstDevice (deviceList env) = Normal (Some d) ->
  open_error env = None ->
  claim_error env = Some e ->
  In s (init env w) ->
  ~ Ready s
  /\ holds d (s_world s)
  /\ c_promise (close err (s_world s)) = Fulfilled tt
  /\ c_uncaught (close err (s_world s)) = []
  /\ calls (c_world (close err (s_world s)))
     = calls (s_world s) ++ [interface_release true; device_close]
  /\ _interface (this (c_world (close err (s_world s)))) = None.
Proof.
  intros Hget Hopen Hclaim Hin.
  assert (Hheld : holds d (s_world s)).
  { pose proof (init_holds env w d Hget Hopen) as Hall.
    rewrite Forall_forall in Hall. exact (Hall s Hin). }
  split.
  { destruct (init_claim_fails env w d e Hget Hopen Hclaim)
      as (s0 & s1 & s2 & Hinit & Hall).
    rewrite Hinit in Hin. rewrite Forall_forall in Hall.
    destruct (Hall s Hin) as [Hrej _]. exact (not_ready_rejected s _ Hrej). }
  split; [exact Hheld|]. destruct Hheld as [Hdev Hifc].
  rewrite (close_with_interface err (s_world s) _ Hifc).
  cbn [c_promise c_uncaught c_world calls this _interface].
  rewrite Hdev. cbn [truthy]. rewrite <- app_assoc.
  repeat split; reflexivity.
Qed.

Lemma X17_close_after_failed_claim_witness :
  (getFirstDevice (deviceList (sample_env LIBUSB_ERROR_BUSY))
   = Normal (Some sample_tessel)
   /\ open_error (sample_env LIBUSB_ERROR_BUSY) = None
   /\ claim_error (sample_env LIBUSB_ERROR_BUSY) = Some LIBUSB_ERROR_BUSY
   /\ In (nth 2 (init (sample_env LIBUSB_ERROR_BUSY) fresh_world) idle_session)
         (init (sample_env LIBUSB_ERROR_BUSY) fresh_world))
  /\ c_promise
       (close None
          (s_world (nth 2 (init (sample_env LIBUSB_ERROR_BUSY) fresh_world)
                          idle_session)))
     = Fulfilled tt
  /\ calls
       (c_world
          (close None
             (s_world (nth 2 (init (sample_env LIBUSB_ERROR_BUSY) fresh_world)
                             idle_session))))
     = [device_open; device_timeout 10000; device_getStringDescriptor 3;
        interface_claim; interface_setAltSetting 1;
        interface_release true; device_close].
Proof.
  assert (H1 : getFirstDevice (deviceList (sample_env LIBUSB_ERROR_BUSY))
               = Normal (Some sample_tessel)) by reflexivity.
  assert (H2 : open_error (sample_env LIBUSB_ERROR_BUSY) = None) by reflexivity.
  assert (H3 : claim_error (sample_env LIBUSB_ERROR_BUSY)
               = Some LIBUSB_ERROR_BUSY) by reflexivity.
  assert (H4 : In (nth 2 (init (sample_env LIBUSB_ERROR_BUSY) fresh_world)
                       idle_session)
                  (init (sample_env LIBUSB_ERROR_BUSY) fresh_world))
    by (apply nth_In; vm_compute; lia).
  split; [exact (conj H1 (conj H2 (conj H3 H4)))|].
  destruct (X17_close_after_failed_claim (sample_env LIBUSB_ERROR_BUSY)
              fresh_world sample_tessel LIBUSB_ERROR_BUSY None _ H1 H2 H3 H4)
    as (_ & _ & Hp & _ & Hcalls & _).
  split; [exact Hp|]. rewrite Hcalls. vm_compute. reflexivity.
Defined.
